(** * alpaca-webui: chat input, settings form, model list, document upload

    A shallow embedding of the client components and of the
    [/api/documents] route, with the properties of their specification.

    JavaScript values are modelled as the code has them: a string is its
    sequence of UTF-16 code units, a [Number] is an IEEE 754 binary64
    float (the Standard Library's [SpecFloat]), integers that stay below
    2^53 are kept in [Z].  React state setters, callbacks, timers and
    network calls are recorded as a trace of effects. *)

From Stdlib Require Import ZArith NArith List Bool Lia String Ascii.
From Stdlib Require Import Floats.SpecFloat.
From stdpp Require Import base option list countable gmap.

Local Open Scope Z_scope.

(* ===================================================================== *)
(** * JavaScript strings *)
(* ===================================================================== *)

Module JS.

(** A code unit of a JavaScript string (UTF-16). *)
Definition jschar := N.
Definition jsstring := list jschar.

(** Literals: an ASCII string read as a sequence of code units. *)
Fixpoint lit (s : String.string) : jsstring :=
  match s with
  | EmptyString => []
  | String a s' => N_of_ascii a :: lit s'
  end.

Definition chr (a : ascii) : jschar := N_of_ascii a.

(** [s.length] *)
Definition jslength (s : jsstring) : Z := Z.of_nat (length s).

(** [a === b] on strings. *)
Definition str_eqb (a b : jsstring) : bool := bool_decide (a = b).

Definition in_range (lo hi c : N) : bool := ((lo <=? c) && (c <=? hi))%N.

(** WhiteSpace and LineTerminator code points of ECMAScript, the
    characters [String.prototype.trim] removes. *)
Definition isWhiteSpace (c : jschar) : bool :=
  (in_range 9 13 c            (* TAB, LF, VT, FF, CR *)
   || (c =? 32) || (c =? 160)   (* SP, NBSP *)
   || (c =? 5760)               (* U+1680 *)
   || in_range 8192 8202 c      (* U+2000 .. U+200A *)
   || (c =? 8232) || (c =? 8233) (* LS, PS *)
   || (c =? 8239) || (c =? 8287) (* U+202F, U+205F *)
   || (c =? 12288) || (c =? 65279))%N. (* U+3000, U+FEFF *)

Fixpoint trimStart (s : jsstring) : jsstring :=
  match s with
  | [] => []
  | c :: s' => if isWhiteSpace c then trimStart s' else s
  end.

Definition trimEnd (s : jsstring) : jsstring := rev (trimStart (rev s)).

(** [s.trim()] *)
Definition trim (s : jsstring) : jsstring := trimEnd (trimStart s).

(** [\d] and [\w] of a regular expression without the [i] and [u] flags. *)
Definition isDigit (c : jschar) : bool := in_range 48 57 c.
Definition isWordChar (c : jschar) : bool :=
  (in_range 97 122 c || in_range 65 90 c || in_range 48 57 c || (c =? 95))%N.

End JS.
Import JS.

(* ===================================================================== *)
(** * Regular expressions *)
(* ===================================================================== *)

Module Regex.

(** The fragment of the regular expression syntax the sources use. *)
Inductive regex : Type :=
| Void : regex                              (* matches nothing *)
| Eps : regex                               (* the empty string *)
| Chr : jschar -> regex                     (* one given character *)
| Class : (jschar -> bool) -> regex         (* a character class *)
| Cat : regex -> regex -> regex             (* r1 r2 *)
| Alt : regex -> regex -> regex             (* r1 | r2 *)
| Star : regex -> regex.                    (* r* *)

Definition Plus (r : regex) : regex := Cat r (Star r).   (* r+ *)
Definition Opt (r : regex) : regex := Alt r Eps.         (* r? *)

Fixpoint Lit (s : jsstring) : regex :=
  match s with
  | [] => Eps
  | c :: s' => Cat (Chr c) (Lit s')
  end.

(** The strings a regular expression denotes. *)
Inductive Matches : regex -> jsstring -> Prop :=
| MEps : Matches Eps []
| MChr c : Matches (Chr c) [c]
| MClass p c : p c = true -> Matches (Class p) [c]
| MCat r1 r2 s1 s2 : Matches r1 s1 -> Matches r2 s2 -> Matches (Cat r1 r2) (s1 ++ s2)
| MAltL r1 r2 s : Matches r1 s -> Matches (Alt r1 r2) s
| MAltR r1 r2 s : Matches r2 s -> Matches (Alt r1 r2) s
| MStar0 r : Matches (Star r) []
| MStarS r s1 s2 : Matches r s1 -> Matches (Star r) s2 -> Matches (Star r) (s1 ++ s2).

(** Matching by derivatives. *)
Fixpoint nullable (r : regex) : bool :=
  match r with
  | Void => false
  | Eps => true
  | Chr _ => false
  | Class _ => false
  | Cat r1 r2 => nullable r1 && nullable r2
  | Alt r1 r2 => nullable r1 || nullable r2
  | Star _ => true
  end.

Fixpoint deriv (c : jschar) (r : regex) : regex :=
  match r with
  | Void => Void
  | Eps => Void
  | Chr d => if (c =? d)%N then Eps else Void
  | Class p => if p c then Eps else Void
  | Cat r1 r2 =>
      if nullable r1 then Alt (Cat (deriv c r1) r2) (deriv c r2)
      else Cat (deriv c r1) r2
  | Alt r1 r2 => Alt (deriv c r1) (deriv c r2)
  | Star r1 => Cat (deriv c r1) (Star r1)
  end.

Fixpoint fullmatch (r : regex) (s : jsstring) : bool :=
  match s with
  | [] => nullable r
  | c :: s' => fullmatch (deriv c r) s'
  end.

(** [/^r$/.test(s)]: without the [m] flag the anchors are the two ends of
    the input, so the test is a match of the whole string. *)
Definition test_anchored (r : regex) (s : jsstring) : bool := fullmatch r s.

End Regex.

(* ===================================================================== *)
(** * JavaScript numbers *)
(* ===================================================================== *)

Module Num.

(** A [Number] is an IEEE 754 binary64 value. *)
Definition prec : Z := 53.
Definition emax : Z := 1024.
Definition Number := spec_float.

Definition NaN : Number := S754_nan.
Definition Infinity (neg : bool) : Number := S754_infinity neg.


(** The Number of an integer (exact up to [MAX_SAFE_INTEGER], rounded to
    nearest-even beyond). *)
Definition of_Z (z : Z) : Number := binary_normalize prec emax z 0 false.

Definition div : Number -> Number -> Number := SFdiv prec emax.
Definition mul : Number -> Number -> Number := SFmul prec emax.

(** The Number nearest to the rational [p / q], for [0 <= p] and [0 < q]. *)
Definition of_ratio (neg : bool) (p q : Z) : Number :=
  if p =? 0 then S754_zero neg
  else
    let '(mz, ez, lz) := SFdiv_core_binary prec emax p 0 q 0 in
    binary_round_aux prec emax neg mz ez lz.

(** ** Decimal digits *)

Definition digit_char (d : Z) : jschar := Z.to_N (48 + d).

Fixpoint digits_fuel (fuel : nat) (n : Z) (acc : jsstring) : jsstring :=
  match fuel with
  | O => acc
  | S fuel' =>
      let acc' := digit_char (n mod 10) :: acc in
      if n <? 10 then acc' else digits_fuel fuel' (n / 10) acc'
  end.

(** The decimal digits of [n >= 0], without leading zeros ("0" for 0). *)
Definition digits (n : Z) : jsstring :=
  digits_fuel (S (Z.to_nat (Z.log2 n))) n [].

Definition digit_value (c : jschar) : Z := Z.of_N c - 48.

(** The value of a digit string read in base ten. *)
Definition digits_value (s : jsstring) : Z :=
  fold_left (fun acc c => 10 * acc + digit_value c) s 0.

(** ** [Number.prototype.toFixed(2)] *)

(** The integer [n] for which [n / 100 - m * 2^e] is closest to zero, the
    larger one when there are two. *)
Definition hundredths (m : positive) (e : Z) : Z :=
  match e with
  | Zneg k => (200 * Zpos m + 2 ^ Zpos k) / 2 ^ (Zpos k + 1)
  | _ => 100 * Zpos m * 2 ^ e
  end.

(** [m * 2^e >= 10^21] *)
Definition ge_1e21 (m : positive) (e : Z) : bool :=
  match e with
  | Zneg k => 10 ^ 21 * 2 ^ Zpos k <=? Zpos m
  | _ => 10 ^ 21 <=? Zpos m * 2 ^ e
  end.

(** The digits of [n], padded to three, with a point before the last two. *)
Definition fixed2_string (n : Z) : jsstring :=
  let m := digits n in
  let m := repeat (chr "0") (3 - length m) ++ m in
  let k := length m in
  firstn (k - 2) m ++ lit "." ++ skipn (k - 2) m.

(** [x.toFixed(2)].  At [|x| >= 10^21] the result is [Number::toString(x)],
    which is not modelled: [None] stands for it. *)
Definition toFixed2 (x : Number) : option jsstring :=
  match x with
  | S754_nan => Some (lit "NaN")
  | S754_infinity neg => Some ((if neg then lit "-" else []) ++ lit "Infinity")
  | S754_zero _ => Some (lit "0.00")
  | S754_finite neg m e =>
      if ge_1e21 m e then None
      else Some ((if neg then lit "-" else []) ++ fixed2_string (hundredths m e))
  end.

(** ** [parseFloat] *)

Fixpoint span (p : jschar -> bool) (s : jsstring) : jsstring * jsstring :=
  match s with
  | c :: s' => if p c then let '(a, b) := span p s' in (c :: a, b) else ([], s)
  | [] => ([], [])
  end.

Definition sign_prefix (s : jsstring) : bool * jsstring :=
  match s with
  | c :: s' =>
      if (c =? chr "-")%N then (true, s')
      else if (c =? chr "+")%N then (false, s')
      else (false, s)
  | [] => (false, [])
  end.

Fixpoint is_prefix (p s : jsstring) : bool :=
  match p, s with
  | [], _ => true
  | a :: p', b :: s' => (a =? b)%N && is_prefix p' s'
  | _ :: _, [] => false
  end.

(** The exponent part [e[+-]digits], if the input starts with one. *)
Definition exponent_part (s : jsstring) : Z :=
  match s with
  | c :: s' =>
      if (c =? chr "e")%N || (c =? chr "E")%N then
        let '(neg, s'') := sign_prefix s' in
        let '(ds, _) := span isDigit s'' in
        match ds with
        | [] => 0
        | _ => if neg then - digits_value ds else digits_value ds
        end
      else 0
  | [] => 0
  end.

(** [parseFloat(s)]: the Number of the longest prefix of the trimmed input
    that is a decimal literal, [NaN] when there is none. *)
Definition parseFloat (s : jsstring) : Number :=
  let '(neg, s1) := sign_prefix (trimStart s) in
  if is_prefix (lit "Infinity") s1 then Infinity neg
  else
    let '(ip, s2) := span isDigit s1 in
    let '(fp, s3) :=
      match s2 with
      | c :: s2' => if (c =? chr ".")%N then span isDigit s2' else ([], s2)
      | [] => ([], [])
      end in
    match ip ++ fp with
    | [] => NaN
    | ds =>
        let ex := exponent_part s3 - Z.of_nat (length fp) in
        let mant := digits_value ds in
        if 0 <=? ex then of_ratio neg (mant * 10 ^ ex) 1
        else of_ratio neg mant (10 ^ (- ex))
    end.

(** [parseFloat(x.toFixed(2))].  Where [toFixed] falls back on
    [Number::toString], parsing the result gives [x] back. *)
Definition parseFloat_toFixed2 (x : Number) : Number :=
  match toFixed2 x with
  | Some s => parseFloat s
  | None => x
  end.

End Num.


(* ===================================================================== *)
(** * Chat input (components/chat-input) *)
(* ===================================================================== *)

Module ChatInput.

Record KeyboardEvent := { key : jsstring; shiftKey : bool }.

(** The boolean props of [ChatInputProps]; the two callbacks appear as
    effects. *)
Record ChatInputProps := {
  isStreamProcessing : bool;
  isFetchLoading : bool;
  isLlmModelActive : bool;
}.

Inductive effect :=
| SetChatInput (v : jsstring)        (* setChatInput(v) *)
| OnSendInput (input : jsstring)     (* onSendInput(input) *)
| PreventDefault.                    (* e.preventDefault() *)

Definition sendChat (chatInput : jsstring) : list effect :=
  let chatInputTrimmed := trim chatInput in
  [SetChatInput (lit ""); OnSendInput chatInputTrimmed].

(** The [onKeyUp] handler of the textarea. *)
Definition chatEnterPress (p : ChatInputProps) (chatInput : jsstring)
    (e : KeyboardEvent) : list effect :=
  if str_eqb (key e) (lit "Enter") && negb (shiftKey e)
     && negb (isStreamProcessing p) && negb (isFetchLoading p) && isLlmModelActive p
  then sendChat chatInput
  else [].

(** The [onKeyDown] handler of the textarea. *)
Definition preventEnterPress (p : ChatInputProps) (e : KeyboardEvent) : list effect :=
  if str_eqb (key e) (lit "Enter") && negb (shiftKey e)
     && negb (isStreamProcessing p) && negb (isFetchLoading p) && isLlmModelActive p
  then [PreventDefault]
  else [].

(** A key press: the key goes down, then up. *)
Definition keyPress (p : ChatInputProps) (chatInput : jsstring)
    (e : KeyboardEvent) : list effect :=
  preventEnterPress p e ++ chatEnterPress p chatInput e.

(** [disabled] of the send button: a stream is in flight, a fetch is
    loading, or no model is active. *)
Definition sendDisabled (p : ChatInputProps) : bool :=
  isStreamProcessing p || isFetchLoading p || negb (isLlmModelActive p).

Definition sends (t : list effect) : list jsstring :=
  omap (fun x => match x with OnSendInput s => Some s | _ => None end) t.

Definition prevented (t : list effect) : bool :=
  existsb (fun x => match x with PreventDefault => true | _ => false end) t.

(** The property as the specification words it: a blocked Enter press
    sends nothing and has its default effect prevented; any other Enter
    press sends the trimmed input. *)
Definition enter_suppressed_when_blocked (p : ChatInputProps)
    (chatInput : jsstring) (e : KeyboardEvent) : Prop :=
  key e = lit "Enter" -> shiftKey e = false ->
  if sendDisabled p
  then sends (keyPress p chatInput e) = [] /\ prevented (keyPress p chatInput e) = true
  else sends (keyPress p chatInput e) = [trim chatInput].

End ChatInput.

(* ===================================================================== *)
(** * Settings form (components/settings/settings-form) *)
(* ===================================================================== *)

Module SettingsForm.
Import Regex.

Definition modelListVariant : list (jsstring * jsstring) :=
  [ (lit "Ollama - /api/tags", lit "ollama");
    (lit "OpenAI - /v1/models", lit "openai");
    (lit "Manual", lit "manual") ].

Record preset := { url : jsstring; modelType : jsstring }.

Definition urls : list preset :=
  [ {| url := lit "http://localhost:11434"; modelType := lit "ollama" |};
    {| url := lit "https://api.openai.com"; modelType := lit "openai" |};
    {| url := lit "https://api.together.xyz"; modelType := lit "openai" |};
    {| url := lit "https://api.mistral.ai"; modelType := lit "openai" |} ].

(** The class [[\w-]]. *)
Definition wordOrHyphen (c : jschar) : bool := isWordChar c || (c =? chr "-")%N.

(** [/^(https?:\/\/)(localhost|[\w-]+(\.[\w-]+)+)(:\d+)?$/] *)
Definition urlPattern : regex :=
  Cat (Cat (Lit (lit "http")) (Cat (Opt (Chr (chr "s"))) (Lit (lit "://"))))
   (Cat (Alt (Lit (lit "localhost"))
             (Cat (Plus (Class wordOrHyphen))
                  (Plus (Cat (Chr (chr ".")) (Plus (Class wordOrHyphen))))))
        (Opt (Cat (Chr (chr ":")) (Plus (Class isDigit))))).

(** ** The schema *)

(** The values of the form.  [modelListVariant] has no default value: it is
    [undefined] until it is set. *)
Record TSettingsSchema := {
  f_url : jsstring;
  f_apiKey : jsstring;
  f_modelListVariant : option jsstring;
}.

Inductive field := FUrl | FApiKey | FModelListVariant.

Record issue := { path : field; message : jsstring }.

(** [z.string().regex(urlPattern, ...)] *)
Definition url_check (u : jsstring) : list issue :=
  if test_anchored urlPattern u then []
  else [ {| path := FUrl;
            message := lit "URL must start with 'http://' or 'https://' followed by a domain name, without any trailing path." |} ].

(** [z.string().min(5, ...)] *)
Definition string_min5 (k : jsstring) : bool := 5 <=? jslength k.

(** [z.literal('')] *)
Definition literal_empty (k : jsstring) : bool := str_eqb k (lit "").

(** [z.union([z.string().min(5, ...), z.literal('')])]: the value passes
    when one of the two options accepts it; otherwise the field reports the
    error of the first option. *)
Definition apiKey_check (k : jsstring) : list issue :=
  if string_min5 k || literal_empty k then []
  else [ {| path := FApiKey;
            message := lit "API Key must be at least 5 characters long." |} ].

(** [z.string({ required_error: ... })] *)
Definition modelListVariant_check (v : option jsstring) : list issue :=
  match v with
  | Some _ => []
  | None => [ {| path := FModelListVariant; message := lit "Please select a model api." |} ]
  end.

(** [SettingsSchema]: the issues of the three fields. *)
Definition SettingsSchema (data : TSettingsSchema) : list issue :=
  url_check (f_url data) ++ apiKey_check (f_apiKey data)
  ++ modelListVariant_check (f_modelListVariant data).

(** ** The form *)

Inductive effect :=
| SetSettings (modelVariant url apiKey : jsstring)
| SetDialogOpen (b : bool)
| ShowErrors (errors : list issue).

Definition onSubmit (variant url apiKey : jsstring) : list effect :=
  [SetSettings variant url apiKey; SetDialogOpen false].

(** [form.handleSubmit(onSubmit)]: the resolver runs the schema, and
    [onSubmit] is called only when it reports no issue. *)
Definition handleSubmit (data : TSettingsSchema) : list effect :=
  match SettingsSchema data, f_modelListVariant data with
  | [], Some v => onSubmit v (f_url data) (f_apiKey data)
  | errors, _ => [ShowErrors errors]
  end.

Definition submitted (t : list effect) : bool :=
  existsb (fun x => match x with SetSettings _ _ _ => true | _ => false end) t.

(** [form.setValue('url', v)] and [form.setValue('modelListVariant', v)] *)
Definition setUrl (v : jsstring) (st : TSettingsSchema) : TSettingsSchema :=
  {| f_url := v; f_apiKey := f_apiKey st; f_modelListVariant := f_modelListVariant st |}.

Definition setModelListVariant (v : jsstring) (st : TSettingsSchema) : TSettingsSchema :=
  {| f_url := f_url st; f_apiKey := f_apiKey st; f_modelListVariant := Some v |}.

Definition setFormValues (url modelType : jsstring) (st : TSettingsSchema)
    : TSettingsSchema :=
  let st := setUrl url st in
  if str_eqb modelType (lit "ollama") then setModelListVariant (lit "ollama") st
  else if str_eqb modelType (lit "openai") then setModelListVariant (lit "openai") st
  else setModelListVariant (lit "manual") st.

(** [onClick] of the badge of a preset. *)
Definition clickBadge (p : preset) (st : TSettingsSchema) : TSettingsSchema :=
  setFormValues (url p) (modelType p) st.


(** ** The URL shape of the specification *)

(** A label of a domain name: a non-empty run of letters, digits,
    underscores and hyphens. *)
Definition label (l : jsstring) : Prop :=
  l <> [] /\ Forall (fun c => wordOrHyphen c = true) l.

(** The labels joined by dots. *)
Fixpoint dotted (ls : list jsstring) : jsstring :=
  match ls with
  | [] => []
  | [l] => l
  | l :: ls' => l ++ lit "." ++ dotted ls'
  end.

(** A host: [localhost], or a domain name of two labels or more. *)
Definition host (h : jsstring) : Prop :=
  h = lit "localhost" \/
  exists ls, (2 <= length ls)%nat /\ Forall label ls /\ h = dotted ls.

(** A port suffix: nothing, or a colon and one digit or more. *)
Definition port_suffix (p : jsstring) : Prop :=
  p = [] \/ exists ds, ds <> [] /\ Forall (fun c => isDigit c = true) ds /\ p = lit ":" ++ ds.

(** [http(s)://host[:port]], and nothing after it. *)
Definition url_shape (u : jsstring) : Prop :=
  exists scheme h p,
    u = scheme ++ h ++ p /\
    (scheme = lit "http://" \/ scheme = lit "https://") /\
    host h /\ port_suffix p.


End SettingsForm.

(* ===================================================================== *)
(** * Model list (hooks/use-model-list) *)
(* ===================================================================== *)

Module ModelList.

(** An element of [TModelsResponseSchema], the common descriptor. *)
Record TModel := {
  id : jsstring;
  object : jsstring;
  created : Z;
  type : option jsstring;      (* [null] is [None] *)
}.

(** A model of the Ollama tag listing; the hook reads its [name] only. *)
Record TTag := { name : jsstring }.

(** A promise that has settled. *)
Inductive settled (A : Type) :=
| Resolved (a : A)
| Rejected.
Arguments Resolved {A} a.
Arguments Rejected {A}.

Inductive api_call :=
| GetTag (baseUrl : jsstring) (embeddedOnly : bool)
| GetModelList (baseUrl token : jsstring) (embeddedOnly : bool).

Section QueryFn.
(** What the two backends answer ([api.getTag], [api.getModelList]). *)
Variable getTag : jsstring -> bool -> settled (list TTag).
Variable getModelList : jsstring -> jsstring -> bool -> settled (list TModel).

(** The [queryFn] of [useModelList]: the network calls it makes, and its
    result. *)
Definition queryFn (modelVariant baseUrl token : jsstring) (embeddedOnly : bool)
    : list api_call * settled (list TModel) :=
  if str_eqb modelVariant (lit "ollama") then
    ( [GetTag baseUrl embeddedOnly],
      match getTag baseUrl embeddedOnly with
      | Resolved models =>
          Resolved (map (fun model =>
            {| id := name model; object := lit "model"; created := 0; type := None |})
            models)
      | Rejected => Rejected
      end )
  else if str_eqb modelVariant (lit "openai") then
    ( [GetModelList baseUrl token embeddedOnly],
      getModelList baseUrl token embeddedOnly )
  else if str_eqb modelVariant (lit "manual") then
    ( [], Resolved [] )
  else
    ( [], Resolved [] ).

(** The [queryKey] under which the result is cached. *)
Definition queryKey (modelVariant baseUrl token : jsstring) (embeddedOnly : bool)
    : list jsstring :=
  [ if embeddedOnly then lit "embed-models" else lit "models";
    modelVariant; token; baseUrl ].
End QueryFn.

End ModelList.

(* ===================================================================== *)
(** * Files *)
(* ===================================================================== *)

Module FileAPI.

(** A [File] of the browser or of the server runtime. *)
Record File := {
  name : jsstring;
  type : jsstring;
  size : Z;
  content : list Byte.byte;
}.

(** The size of a file is the number of its bytes. *)
Definition File_wf (f : File) : Prop := size f = Z.of_nat (length (content f)).

End FileAPI.

(* ===================================================================== *)
(** * The file table and the upload route (db/schema, api/documents/route) *)
(* ===================================================================== *)

Module Documents.
Import FileAPI.

(** A row of the table [files]. *)
Record TFileSchema := {
  id : Z;
  filename : jsstring;
  fileSize : option Z;
  timestamp : jsstring;
  isEmbedded : bool;
  embedModel : option jsstring;
}.

(** The table, with the largest id it has ever held (the AUTOINCREMENT
    counter of the database). *)
Record files := {
  rows : list TFileSchema;
  sequence : Z;
}.

Definition max_id (rs : list TFileSchema) : Z :=
  fold_right (fun r acc => Z.max (id r) acc) 0 rs.

(** [db.insert(files).values({ filename, fileSize })]: the id is one more
    than every id the table has held, the other columns take their
    defaults; [now] is the local time of the insertion. *)
Definition insert (now filename : jsstring) (fileSize : Z) (t : files) : files :=
  let new_id := Z.max (sequence t) (max_id (rows t)) + 1 in
  {| rows := rows t ++
       [ {| id := new_id; filename := filename; fileSize := Some fileSize;
            timestamp := now; isEmbedded := false; embedModel := Some (lit "") |} ];
     sequence := new_id |}.

(** What the route can change: the files on disk and the table.  The disk
    is keyed by files, not by the texts of paths: two paths that the file
    system resolves to one file have one entry. *)
Record ServerState := {
  disk : gmap jsstring (list Byte.byte);
  table : files;
}.

(** [fs.writeFile(path, data)], when it resolves: the file that the path
    resolves to holds the data.  [resolve] is the resolution of paths by
    the file system of the server. *)
Definition writeFile (resolve : jsstring -> jsstring) (path : jsstring)
    (data : list Byte.byte) (st : ServerState) : ServerState :=
  {| disk := <[resolve path := data]> (disk st); table := table st |}.

(** The promises the route awaits after the form data, without a handler
    for a rejection: at most one of them rejects. *)
Inductive rejection :=
| NoRejection
| ArrayBufferRejects                             (* file.arrayBuffer() *)
| WriteFileRejects (left : option (list Byte.byte))
    (* fs.writeFile(...); [left] is what the failed write has left in the
       file, [None] when it has not touched it *)
| InsertRejects.                                 (* db.insert(...).values(...) *)

Inductive FormDataEntryValue :=
| EntryString (s : jsstring)
| EntryFile (f : File).

Definition FormData := list (jsstring * FormDataEntryValue).

(** [formData.get(name)]: the first value of that name, or [null]. *)
Fixpoint get (formData : FormData) (name : jsstring) : option FormDataEntryValue :=
  match formData with
  | [] => None
  | (n, v) :: rest => if str_eqb n name then Some v else get rest name
  end.

Inductive ResponseBody :=
| TextBody (text : jsstring)
| StreamBody (chunks : list (list Byte.byte)).

Record Response := { status : Z; body : ResponseBody }.

(** What a call of the handler comes to: a response, or an exception. *)
Inductive outcome :=
| Responded (response : Response)
| Threw.

(** [POST] of [/api/documents].  [now] is the local time of the insert,
    [io] says which of the awaited promises rejects, if one does. *)
Definition POST (resolve : jsstring -> jsstring) (now : jsstring) (io : rejection)
    (formData : FormData) (st : ServerState) : outcome * ServerState :=
  match get formData (lit "file") with
  | Some (EntryFile file) =>
      let fileBuffer := content file in
      let filePath := lit "./uploads/" ++ name file in
      match io with
      | ArrayBufferRejects => (Threw, st)
      | WriteFileRejects None => (Threw, st)
      | WriteFileRejects (Some partial) => (Threw, writeFile resolve filePath partial st)
      | InsertRejects => (Threw, writeFile resolve filePath fileBuffer st)
      | NoRejection =>
          let st := writeFile resolve filePath fileBuffer st in
          let st := {| disk := disk st;
                       table := insert now (name file) (size file) (table st) |} in
          (* the stream enqueues the buffer as one chunk and closes *)
          (Responded {| status := 200; body := StreamBody [fileBuffer] |}, st)
      end
  | _ =>
      (* [null], or a string: not a [File] *)
      (Responded {| status := 400; body := TextBody (lit "No file uploaded") |}, st)
  end.

(** The bytes of a body. *)
Definition body_bytes (b : ResponseBody) : option (list Byte.byte) :=
  match b with
  | StreamBody chunks => Some (concat chunks)
  | TextBody _ => None
  end.

(** The property of the route as the specification words it: a request
    without a File gets 400 and changes nothing; every other request gets a
    200 response whose body streams the bytes of its File. *)
Definition answers_400_or_200 (resolve : jsstring -> jsstring) (now : jsstring)
    (io : rejection) (formData : FormData) (st : ServerState) : Prop :=
  match get formData (lit "file") with
  | Some (EntryFile file) =>
      exists chunks st',
        POST resolve now io formData st
          = (Responded {| status := 200; body := StreamBody chunks |}, st') /\
        concat chunks = content file
  | _ =>
      POST resolve now io formData st
        = (Responded {| status := 400; body := TextBody (lit "No file uploaded") |}, st)
  end.

End Documents.

(* ===================================================================== *)
(** * Upload page (app/upload/page) *)
(* ===================================================================== *)

Module UploadPage.
Import FileAPI.

Definition maxFileSizeMb : Z := 30.

(** ** The schema of the form *)

(** What the field [file] may hold: [z.custom<FileList>()] lets any value
    in. *)
Inductive FieldValue :=
| AFile (f : File)
| AFileList (fs : list File)
| Other.

Definition transform (val : FieldValue) : option File :=
  match val with
  | AFile f => Some f
  | AFileList fs => head fs      (* val[0] *)
  | Other => None
  end.

Definition includes (xs : list jsstring) (x : jsstring) : bool :=
  existsb (str_eqb x) xs.

(** The messages of the issues [superRefine] adds. *)
Definition superRefine (file : option File) : list jsstring :=
  match file with
  | None => [lit "Not a file"]
  | Some file =>
      (if size file >? maxFileSizeMb * 1024 * 1024
       then [lit "Max file size allowed is " ++ Num.digits maxFileSizeMb ++ lit "MB"]
       else [])
      ++
      (if negb (includes [lit "application/pdf"; lit "text/plain"] (type file))
       then [lit "File must be an document (pdf, txt)"]
       else [])
  end.

(** [formSchema]: the issues of the field. *)
Definition formSchema (val : FieldValue) : list jsstring :=
  superRefine (transform val).

(** ** The page *)

#[warnings="-register-all"]
Inductive effect :=
| SetFormValue (f : File)                        (* form.setValue('file', f) *)
| FieldError (message : jsstring)                (* shown by FormMessage *)
| SetFileLoading (b : bool)
| SetFilename (s : jsstring)
| SetFilesize (n : Z)
| SetFadeOut (b : bool)
| Fetch (url method : jsstring) (file : File) (filename : jsstring)
| UpdateProgress (percent : Num.Number)          (* updateProgress(percent) *)
| ConsoleError
| ToastSuccess (title description : jsstring)
| SetTimeout (delay : Z) (callback : list effect).

(** How a response stream ends: [read()] reports [done], or rejects. *)
Inductive stream_end := StreamDone | StreamError.

(** What [fetch] gives: a rejection, or a response with its status and its
    body; the body is [null], or chunks and an end. *)
Inductive fetch_result :=
| FetchRejected
| FetchResponse (status : Z) (body : option (list (list Byte.byte) * stream_end)).

(** [response.ok] *)
Definition ok (status : Z) : bool := (200 <=? status) && (status <=? 299).

(** A progress step:
    [parseFloat((receivedLength / file.size).toFixed(2)) * 100]. *)
Definition step (receivedLength fileSize : Z) : Num.Number :=
  Num.mul (Num.parseFloat_toFixed2 (Num.div (Num.of_Z receivedLength) (Num.of_Z fileSize)))
          (Num.of_Z 100).

(** The loop over the chunks that [reader.read()] delivers: the length
    received in the end, and the calls of [updateProgress]. *)
Fixpoint readLoop (fileSize receivedLength : Z) (chunks : list (list Byte.byte))
    : Z * list effect :=
  match chunks with
  | [] => (receivedLength, [])
  | value :: rest =>
      let receivedLength := receivedLength + Z.of_nat (length value) in
      let '(final, t) := readLoop fileSize receivedLength rest in
      (final, UpdateProgress (step receivedLength fileSize) :: t)
  end.

(** The body of the [try] block of [onSubmit], the [catch] included. *)
Definition tryUpload (file : File) (r : fetch_result) : list effect :=
  match r with
  | FetchRejected => [ConsoleError]
  | FetchResponse status body =>
      if negb (ok status) then [ConsoleError]      (* throw new Error('Failed to upload') *)
      else
        match body with
        | None => []                               (* reader == null: return *)
        | Some (chunks, e) =>
            snd (readLoop (size file) 0 chunks)
            ++ match e with StreamDone => [] | StreamError => [ConsoleError] end
        end
  end.

(** The [finally] block of [onSubmit]. *)
Definition finallyUpload (file : File) : list effect :=
  [ ToastSuccess (lit "Document uploaded successfully!") (lit "File: " ++ name file);
    SetTimeout 2000 [SetFadeOut true];
    SetTimeout 3000
      [SetFileLoading false; SetFilename (lit ""); SetFilesize 0;
       UpdateProgress (Num.of_Z 0)] ].

Definition onSubmit (file : File) (r : fetch_result) : list effect :=
  [ SetFileLoading true;
    SetFilename (name file);
    SetFilesize (size file);
    Fetch (lit "/api/documents") (lit "POST") file (name file) ]
  ++ tryUpload file r
  ++ finallyUpload file.

(** [form.handleSubmit(onSubmit)()]: the resolver runs the schema again;
    [onSubmit] is called when there is no issue. *)
Definition handleSubmit (val : FieldValue) (r : fetch_result) : list effect :=
  match formSchema val, transform val with
  | [], Some file => onSubmit file r
  | message :: _, _ => [FieldError message]
  | [], None => []
  end.

(** [onFileSelected].  [handleSubmit] awaits the resolver before it calls
    [onSubmit], so the four setters after it run first. *)
Definition onFileSelected (file : File) (r : fetch_result) : list effect :=
  SetFormValue file ::
  match formSchema (AFile file) with
  | [] =>                                          (* isValid *)
      [ SetFilename (name file); SetFilesize (size file);
        SetFileLoading true; SetFadeOut false ]
      ++ handleSubmit (AFile file) r
  | message :: _ => [FieldError message]
  end.

(** ** Observations on a trace *)

Definition is_fetch (x : effect) : bool :=
  match x with Fetch _ _ _ _ => true | _ => false end.

(** The network calls of a trace. *)
Definition fetches (t : list effect) : list effect := filter (fun x => is_fetch x = true) t.

(** The last value given to [updateProgress] by a trace. *)
Definition lastProgress (t : list effect) : option Num.Number :=
  last (omap (fun x => match x with UpdateProgress v => Some v | _ => None end) t).

(** ** The client and the route together *)



End UploadPage.

(* ===================================================================== *)
(** * Chat input: the controls and the state *)
(* ===================================================================== *)

Module ChatInputView.
Import ChatInput.

(** What a click can do besides what the keys do: [onCancelStream()]. *)
Inductive action :=
| Chat (e : effect)
| OnCancelStream.

(** The button beside the textarea. *)
Inductive control :=
| StopButton (disabled : bool)
| SendButton (disabled : bool).

(** The button the component renders: the stop button while a stream is
    processed, the send button otherwise. *)
Definition button (p : ChatInputProps) : control :=
  if isStreamProcessing p
  then StopButton (isFetchLoading p)
  else SendButton (isStreamProcessing p || isFetchLoading p || negb (isLlmModelActive p)).

(** [disabled] of the textarea. *)
Definition textareaDisabled (p : ChatInputProps) : bool := negb (isLlmModelActive p).

(** A click on the button; a disabled button does not call [onClick]. *)
Definition click (p : ChatInputProps) (chatInput : jsstring) : list action :=
  match button p with
  | StopButton disabled => if disabled then [] else [OnCancelStream]
  | SendButton disabled => if disabled then [] else map Chat (sendChat chatInput)
  end.

(** The events of the component. *)
Inductive event :=
| Change (value : jsstring)          (* onChange of the textarea *)
| Key (e : KeyboardEvent)            (* a key goes down and up *)
| Click.                             (* a click on the button *)

(** The state [chatInput] after the effects of a handler. *)
Fixpoint after (t : list effect) (chatInput : jsstring) : jsstring :=
  match t with
  | [] => chatInput
  | SetChatInput v :: t' => after t' v
  | _ :: t' => after t' chatInput
  end.

Definition chatEffects (t : list action) : list effect :=
  omap (fun a => match a with Chat e => Some e | OnCancelStream => None end) t.

(** One event: the new state, and what the handlers did. *)
Definition handle (p : ChatInputProps) (ev : event) (chatInput : jsstring)
    : jsstring * list action :=
  match ev with
  | Change value => (value, [Chat (SetChatInput value)])
  | Key e =>
      let t := keyPress p chatInput e in
      (after t chatInput, map Chat t)
  | Click =>
      let t := click p chatInput in
      (after (chatEffects t) chatInput, t)
  end.

(** The texts given to [onSendInput] by a list of actions. *)
Definition sent (t : list action) : list jsstring := sends (chatEffects t).

End ChatInputView.

(* ===================================================================== *)
(** * Settings form: the store values and the select *)
(* ===================================================================== *)

Module SettingsFormView.
Import SettingsForm.

(** [form.setValue('apiKey', v)] *)
Definition setApiKey (v : jsstring) (st : TSettingsSchema) : TSettingsSchema :=
  {| f_url := f_url st; f_apiKey := v; f_modelListVariant := f_modelListVariant st |}.

(** [x ?? ''] *)
Definition orEmpty (x : option jsstring) : jsstring :=
  match x with Some s => s | None => lit "" end.

(** The effect that copies the values of the store into the form. *)
Definition fromStore (hostname token modelVariant : option jsstring)
    (st : TSettingsSchema) : TSettingsSchema :=
  setModelListVariant (orEmpty modelVariant)
    (setApiKey (orEmpty token) (setUrl (orEmpty hostname) st)).

(** The text of the select button:
    [field.value ? modelListVariant.find(...)?.label : 'Select'];
    [None] is [undefined], which renders nothing. *)
Definition selectText (value : option jsstring) : option jsstring :=
  match value with
  | None | Some [] => Some (lit "Select")
  | Some v =>
      match find (fun model => str_eqb (snd model) v) modelListVariant with
      | Some model => Some (fst model)
      | None => None
      end
  end.

(** [onSelect] of an item of the select. *)
Definition selectItem (model : jsstring * jsstring) (st : TSettingsSchema)
    : TSettingsSchema :=
  setModelListVariant (snd model) st.

End SettingsFormView.

(* ===================================================================== *)
(** * The route over several requests *)
(* ===================================================================== *)

Module DocumentsRun.
Import FileAPI Documents.

(** A request: the local time at which it is handled, the promise that
    rejects while it is handled (if one does), and its form data. *)
Record request := {
  time : jsstring;
  io : rejection;
  formData : FormData;
}.

Definition handle (resolve : jsstring -> jsstring) (req : request) (st : ServerState)
    : outcome * ServerState :=
  POST resolve (time req) (io req) (formData req) st.

(** The state after the requests have been handled one after the other. *)
Definition run (resolve : jsstring -> jsstring) (reqs : list request)
    (st : ServerState) : ServerState :=
  fold_left (fun st req => snd (handle resolve req st)) reqs st.

(** The file of a request, when it has one. *)
Definition uploaded (req : request) : option File :=
  match get (formData req) (lit "file") with
  | Some (EntryFile file) => Some file
  | _ => None
  end.

(** The file of a request that is answered with 200: it has a file and
    nothing rejects. *)
Definition stored (req : request) : option File :=
  match io req with
  | NoRejection => uploaded req
  | _ => None
  end.

(** A request that leaves the disk and the table in step: nothing rejects,
    or what rejects has not touched the disk. *)
Definition inStep (req : request) : Prop :=
  match io req with
  | NoRejection | ArrayBufferRejects | WriteFileRejects None => True
  | WriteFileRejects (Some _) | InsertRejects => False
  end.

(** The path the route writes a file of that name to. *)
Definition pathOf (name : jsstring) : jsstring := lit "./uploads/" ++ name.

(** The newest row whose file is [f]: its name gives a path that resolves
    to [f]. *)
Definition latest (resolve : jsstring -> jsstring) (f : jsstring)
    (rs : list TFileSchema) : option TFileSchema :=
  last (filter (fun r => resolve (pathOf (filename r)) = f) rs).

End DocumentsRun.

(* ===================================================================== *)
(** * Paths *)
(* ===================================================================== *)

Module Paths.

(** The segments of a path, split at the slashes; [cur] is the segment
    being read, backwards. *)
Fixpoint segments (path cur : jsstring) : list jsstring :=
  match path with
  | [] => [rev cur]
  | c :: path' =>
      if (c =? chr "/")%N then rev cur :: segments path' []
      else segments path' (c :: cur)
  end.

(** One segment more on the way: [stack] is the way so far, the last
    segment first. *)
Definition walk (stack : list jsstring) (seg : jsstring) : list jsstring :=
  if str_eqb seg (lit "") || str_eqb seg (lit ".") then stack
  else if str_eqb seg (lit "..") then
    match stack with
    | top :: below => if str_eqb top (lit "..") then seg :: stack else below
    | [] => [seg]
    end
  else seg :: stack.

Fixpoint join (segs : list jsstring) : jsstring :=
  match segs with
  | [] => []
  | [seg] => seg
  | seg :: segs' => seg ++ lit "/" ++ join segs'
  end.

(** The resolution of a relative path in a directory tree without links:
    empty segments and [.] are dropped, [..] goes one directory up. *)
Definition lexical (path : jsstring) : jsstring :=
  join (rev (fold_left walk (segments path []) [])).

End Paths.


(* ===================================================================== *)
(** * Upload page: embedding a document *)
(* ===================================================================== *)

Module Embedding.

(** What [api.postEmbedDocument] resolves to. *)
Record EmbedResponse := { success : bool; errorMessage : jsstring }.

Inductive effect :=
| SetIsEmbedding (b : bool)
| PostEmbedDocument (documentId : Z) (model : jsstring)
| ToastSuccess (title : jsstring)
| ToastError (title description : jsstring)
| LoadFiles.

(** [embedDocumentPost]; [response] is what the call gives, [None] when
    it rejects (the function has no handler for that, and stops there). *)
Definition embedDocumentPost (documentId : Z) (response : option EmbedResponse)
    : list effect :=
  [SetIsEmbedding true; PostEmbedDocument documentId (lit "nomic-embed-text")]
  ++ match response with
     | None => []
     | Some response =>
         (if success response
          then [ToastSuccess (lit "Document embedded successfully")]
          else [ToastError (lit "Failed to embed document") (errorMessage response)])
         ++ [LoadFiles; SetIsEmbedding false]
     end.

(** The state [isEmbedding] after a trace. *)
Definition isEmbeddingAfter (t : list effect) (isEmbedding : bool) : bool :=
  fold_left (fun b x => match x with SetIsEmbedding b' => b' | _ => b end) t isEmbedding.

(** The last cell of a row of the table of files. *)
Inductive cell :=
| EmbedButton (documentId : Z) (disabled : bool)
| EmbeddedWith (model : option jsstring).

Definition rowCell (file : Documents.TFileSchema) (isEmbedding : bool) : cell :=
  if negb (Documents.isEmbedded file)
  then EmbedButton (Documents.id file) isEmbedding
  else EmbeddedWith (Documents.embedModel file).

(** A click on the cell. *)
Definition clickCell (c : cell) (response : option EmbedResponse) : list effect :=
  match c with
  | EmbedButton documentId false => embedDocumentPost documentId response
  | _ => []
  end.

Definition isToast (x : effect) : bool :=
  match x with ToastSuccess _ | ToastError _ _ => true | _ => false end.

Definition toasts (t : list effect) : list effect := filter (fun x => isToast x = true) t.

End Embedding.

(* ===================================================================== *)
(** * Properties *)
(* ===================================================================== *)

Lemma str_eqb_eq a b : str_eqb a b = true <-> a = b.
Proof. unfold str_eqb. rewrite bool_decide_eq_true. tauto. Qed.

(** ** Trimming *)

Module JSFacts.

Lemma trimStart_head s c r : trimStart s = c :: r -> isWhiteSpace c = false.
Proof.
  induction s as [|x s IH]; simpl; [discriminate|].
  destruct (isWhiteSpace x) eqn:E; [exact IH|].
  intros H. injection H as <- _. exact E.
Qed.

Lemma trimStart_split s :
  exists a, Forall (fun c => isWhiteSpace c = true) a /\ s = a ++ trimStart s.
Proof.
  induction s as [|x s (a & Ha & E)]; simpl.
  - exists []. split; [constructor|reflexivity].
  - destruct (isWhiteSpace x) eqn:Ex.
    + exists (x :: a). split; [constructor; assumption|]. simpl. f_equal. exact E.
    + exists []. split; [constructor|reflexivity].
Qed.

Lemma trimEnd_split s :
  exists b, Forall (fun c => isWhiteSpace c = true) b /\ s = trimEnd s ++ b.
Proof.
  destruct (trimStart_split (rev s)) as (a & Ha & E).
  exists (rev a). split.
  - apply Forall_rev. exact Ha.
  - unfold trimEnd. rewrite <- rev_app_distr, <- E, rev_involutive. reflexivity.
Qed.

(** [trim] takes white space away from both ends, and all of it: what is
    left neither starts nor ends with white space. *)
Lemma trim_spec s :
  (exists a b,
     Forall (fun c => isWhiteSpace c = true) a /\
     Forall (fun c => isWhiteSpace c = true) b /\
     s = a ++ trim s ++ b) /\
  (forall c r, trim s = c :: r -> isWhiteSpace c = false) /\
  (forall c r, trim s = r ++ [c] -> isWhiteSpace c = false).
Proof.
  destruct (trimStart_split s) as (a & Ha & Ea).
  destruct (trimEnd_split (trimStart s)) as (b & Hb & Eb).
  split; [|split].
  - exists a, b. split; [assumption|]. split; [assumption|].
    unfold trim. rewrite <- Eb. exact Ea.
  - intros c r H. unfold trim in H. rewrite H in Eb.
    apply (trimStart_head s c (r ++ b)). exact Eb.
  - intros c r H. unfold trim, trimEnd in H.
    apply (f_equal (@rev jschar)) in H. rewrite rev_involutive, rev_app_distr in H.
    simpl in H. apply (trimStart_head _ _ _ H).
Qed.

End JSFacts.

(** ** Matching by derivatives is matching *)

Module RegexFacts.
Import Regex.

Lemma cat_inv r1 r2 s :
  Matches (Cat r1 r2) s ->
  exists s1 s2, s = s1 ++ s2 /\ Matches r1 s1 /\ Matches r2 s2.
Proof. intros H. inversion H; subst. eauto. Qed.

Lemma alt_inv r1 r2 s : Matches (Alt r1 r2) s -> Matches r1 s \/ Matches r2 s.
Proof. intros H. inversion H; subst; auto. Qed.

Lemma eps_inv s : Matches Eps s -> s = [].
Proof. intros H. inversion H; auto. Qed.

Lemma chr_inv c s : Matches (Chr c) s -> s = [c].
Proof. intros H. inversion H; auto. Qed.

Lemma class_inv p s : Matches (Class p) s -> exists c, s = [c] /\ p c = true.
Proof. intros H. inversion H; subst; eauto. Qed.

Lemma void_inv s : ~ Matches Void s.
Proof. intros H. inversion H. Qed.

Lemma cat_cons r1 r2 c s1 s2 :
  Matches r1 (c :: s1) -> Matches r2 s2 -> Matches (Cat r1 r2) (c :: s1 ++ s2).
Proof. intros H1 H2. apply (MCat _ _ (c :: s1) s2); assumption. Qed.

Lemma cat_nil_l r1 r2 s : Matches r1 [] -> Matches r2 s -> Matches (Cat r1 r2) s.
Proof. intros H1 H2. apply (MCat _ _ [] s); assumption. Qed.

Lemma nullable_spec r : nullable r = true <-> Matches r [].
Proof.
  induction r as [| |d|p|r1 IH1 r2 IH2|r1 IH1 r2 IH2|r IH]; simpl; split; intros H;
    try discriminate.
  - destruct (void_inv _ H).
  - constructor.
  - reflexivity.
  - apply chr_inv in H. discriminate.
  - apply class_inv in H as (c & E & _). discriminate.
  - apply andb_prop in H as [H1 H2]. apply cat_nil_l; tauto.
  - apply cat_inv in H as (s1 & s2 & E & H1 & H2). symmetry in E.
    apply app_eq_nil in E as [-> ->]. apply andb_true_intro; tauto.
  - apply orb_prop in H as [H|H]; [apply MAltL|apply MAltR]; tauto.
  - apply orb_true_intro. apply alt_inv in H as [H|H]; tauto.
  - constructor.
  - reflexivity.
Qed.

Lemma star_cons_inv r c s :
  Matches (Star r) (c :: s) ->
  exists s1 s2, s = s1 ++ s2 /\ Matches r (c :: s1) /\ Matches (Star r) s2.
Proof.
  intros H. remember (Star r) as r' eqn:Er. remember (c :: s) as w eqn:Ew.
  revert Er Ew. induction H; try discriminate.
  intros Er Ew. injection Er as ->.
  destruct s1 as [|c1 s1]; simpl in Ew.
  - apply IHMatches2; auto.
  - injection Ew as -> <-. eauto.
Qed.

Lemma deriv_spec r : forall c s, Matches (deriv c r) s <-> Matches r (c :: s).
Proof.
  induction r as [| |d|p|r1 IH1 r2 IH2|r1 IH1 r2 IH2|r IH]; intros c s; simpl.
  - split; intros H; destruct (void_inv _ H).
  - split; intros H; [destruct (void_inv _ H)|apply eps_inv in H; discriminate].
  - destruct (N.eqb_spec c d) as [->|Hne]; split; intros H.
    + apply eps_inv in H as ->. constructor.
    + apply chr_inv in H. injection H as ->. constructor.
    + destruct (void_inv _ H).
    + apply chr_inv in H. congruence.
  - destruct (p c) eqn:Ep; split; intros H.
    + apply eps_inv in H as ->. constructor; assumption.
    + apply class_inv in H as (c' & E & _). injection E as -> ->. constructor.
    + destruct (void_inv _ H).
    + apply class_inv in H as (c' & E & Hp). injection E as -> ->. congruence.
  - destruct (nullable r1) eqn:En.
    + split; intros H.
      * apply alt_inv in H as [H|H].
        -- apply cat_inv in H as (s1 & s2 & -> & H1 & H2).
           apply cat_cons; [apply IH1|]; assumption.
        -- apply cat_nil_l; [apply nullable_spec|apply IH2]; assumption.
      * apply cat_inv in H as (s1 & s2 & E & H1 & H2).
        destruct s1 as [|c1 s1]; simpl in E.
        -- subst s2. apply MAltR, IH2; assumption.
        -- injection E as -> ->. apply MAltL. constructor; [apply IH1|]; assumption.
    + split; intros H.
      * apply cat_inv in H as (s1 & s2 & -> & H1 & H2).
        apply cat_cons; [apply IH1|]; assumption.
      * apply cat_inv in H as (s1 & s2 & E & H1 & H2).
        destruct s1 as [|c1 s1]; simpl in E.
        -- apply nullable_spec in H1. congruence.
        -- injection E as -> ->. constructor; [apply IH1|]; assumption.
  - split; intros H; apply alt_inv in H as [H|H];
      solve [apply MAltL, IH1; assumption | apply MAltR, IH2; assumption].
  - split; intros H.
    + apply cat_inv in H as (s1 & s2 & -> & H1 & H2).
      apply (MStarS _ (c :: s1) s2); [apply IH|]; assumption.
    + apply star_cons_inv in H as (s1 & s2 & -> & H1 & H2).
      constructor; [apply IH|]; assumption.
Qed.

Theorem fullmatch_spec s : forall r, fullmatch r s = true <-> Matches r s.
Proof.
  induction s as [|c s IH]; intros r; simpl.
  - apply nullable_spec.
  - rewrite IH. apply deriv_spec.
Qed.

End RegexFacts.

(** ** Facts about Numbers *)

Module NumFacts.
Import Num.














End NumFacts.

(** ** Chat input *)

Module ChatInputSpec.
Import ChatInput.

Definition enterKey : KeyboardEvent := {| key := lit "Enter"; shiftKey := false |}.

Definition streaming : ChatInputProps :=
  {| isStreamProcessing := true; isFetchLoading := false; isLlmModelActive := true |}.

Definition ready : ChatInputProps :=
  {| isStreamProcessing := false; isFetchLoading := false; isLlmModelActive := true |}.

(** While a stream is in flight, Enter sends nothing, but its default
    effect is not prevented: [preventDefault] is called under the very
    condition under which the input is sent. *)
Lemma enter_while_streaming_not_prevented :
  ~ enter_suppressed_when_blocked streaming (lit " hello ") enterKey.
Proof.
  unfold enter_suppressed_when_blocked. intros H.
  specialize (H eq_refl eq_refl). vm_compute in H.
  destruct H as [_ H]. discriminate H.
Qed.

(** C1, as the code has it.  For every Enter key press without shift: if
    a stream is in flight, a fetch is loading, or no model is active,
    neither handler does anything (the send action is not invoked, and the
    default effect of the key is not prevented); otherwise the key-down
    handler prevents the default effect, and the key-up handler clears the
    input and passes the trimmed input to the send action. *)
Theorem enter_press p chatInput e :
  key e = lit "Enter" -> shiftKey e = false ->
  if sendDisabled p
  then preventEnterPress p e = [] /\ chatEnterPress p chatInput e = []
  else preventEnterPress p e = [PreventDefault] /\
       chatEnterPress p chatInput e = [SetChatInput []; OnSendInput (trim chatInput)].
Proof.
  intros Hk Hs. unfold sendDisabled, preventEnterPress, chatEnterPress, sendChat.
  rewrite Hk, Hs.
  destruct (isStreamProcessing p), (isFetchLoading p), (isLlmModelActive p);
    split; reflexivity.
Qed.

Lemma enter_press_witness :
  key enterKey = lit "Enter" /\ shiftKey enterKey = false /\
  preventEnterPress ready enterKey = [PreventDefault] /\
  chatEnterPress ready (lit " hello ") enterKey
    = [SetChatInput []; OnSendInput (lit "hello")].
Proof.
  split; [reflexivity|]. split; [reflexivity|].
  exact (enter_press ready (lit " hello ") enterKey eq_refl eq_refl).
Defined.

End ChatInputSpec.

(** ** The languages of the combinators *)

Module RegexLang.
Import Regex RegexFacts.

Lemma lit_matches s w : Matches (Lit s) w <-> w = s.
Proof.
  revert w. induction s as [|c s IH]; intros w; simpl.
  - split; [apply eps_inv|intros ->; constructor].
  - split.
    + intros H. apply cat_inv in H as (s1 & s2 & -> & H1 & H2).
      apply chr_inv in H1 as ->. apply IH in H2 as ->. reflexivity.
    + intros ->. apply (MCat _ _ [c] s); [constructor|apply IH; reflexivity].
Qed.

Lemma opt_matches r w : Matches (Opt r) w <-> Matches r w \/ w = [].
Proof.
  unfold Opt. split.
  - intros H. apply alt_inv in H as [H|H]; [left; assumption|right; apply eps_inv; assumption].
  - intros [H| ->]; [apply MAltL; assumption|apply MAltR; constructor].
Qed.

(** A star matches the concatenations of matches of its body. *)
Lemma star_matches r w :
  Matches (Star r) w <-> exists ws, Forall (Matches r) ws /\ w = concat ws.
Proof.
  split.
  - intros H. remember (Star r) as r' eqn:Er. revert Er.
    induction H; try discriminate; intros Er; injection Er as ->.
    + exists []. split; [constructor|reflexivity].
    + destruct (IHMatches2 eq_refl) as (ws & Hws & ->).
      exists (s1 :: ws). split; [constructor; assumption|reflexivity].
  - intros (ws & Hws & ->). induction Hws as [|x ws Hx _ IH]; simpl.
    + constructor.
    + constructor; assumption.
Qed.

Lemma star_class_matches p w :
  Matches (Star (Class p)) w <-> Forall (fun c => p c = true) w.
Proof.
  rewrite star_matches. split.
  - intros (ws & Hws & ->). induction Hws as [|x ws Hx _ IH]; simpl.
    + constructor.
    + apply class_inv in Hx as (c & -> & Hc). simpl. constructor; assumption.
  - intros H. induction H as [|c w Hc _ (ws & Hws & ->)].
    + exists []. split; [constructor|reflexivity].
    + exists ([c] :: ws). split; [|reflexivity].
      constructor; [constructor; assumption|assumption].
Qed.

(** [[p]+] matches the non-empty strings of characters of the class. *)
Lemma plus_class_matches p w :
  Matches (Plus (Class p)) w <-> w <> [] /\ Forall (fun c => p c = true) w.
Proof.
  unfold Plus. split.
  - intros H. apply cat_inv in H as (s1 & s2 & -> & H1 & H2).
    apply class_inv in H1 as (c & -> & Hc). apply star_class_matches in H2.
    split; [discriminate|]. simpl. constructor; assumption.
  - intros [Hne H]. destruct H as [|c w Hc Hw]; [congruence|].
    apply (MCat _ _ [c] w); [constructor; assumption|].
    apply star_class_matches; assumption.
Qed.

End RegexLang.

(** ** Settings form *)

Module SettingsFormSpec.
Import Regex RegexFacts RegexLang SettingsForm.

(** *** The URL pattern and the URL shape *)

(** The labels, each after a dot. *)
Definition dots (ls : list jsstring) : jsstring :=
  concat (map (fun l => lit "." ++ l) ls).

Lemma dotted_cons l ls : dotted (l :: ls) = l ++ dots ls.
Proof.
  revert l. induction ls as [|l' ls IH]; intros l.
  - simpl. rewrite app_nil_r. reflexivity.
  - change (dotted (l :: l' :: ls)) with (l ++ lit "." ++ dotted (l' :: ls)).
    rewrite IH. unfold dots. simpl. reflexivity.
Qed.

Lemma label_matches l : Matches (Plus (Class wordOrHyphen)) l <-> label l.
Proof. apply plus_class_matches. Qed.

Lemma dot_label_matches w :
  Matches (Cat (Chr (chr ".")) (Plus (Class wordOrHyphen))) w <->
  exists l, label l /\ w = lit "." ++ l.
Proof.
  split.
  - intros H. apply cat_inv in H as (s1 & s2 & -> & H1 & H2).
    apply chr_inv in H1 as ->. apply label_matches in H2. eauto.
  - intros (l & Hl & ->). apply (MCat _ _ (lit ".") l); [constructor|].
    apply label_matches; assumption.
Qed.

Lemma dot_labels_matches w :
  Matches (Star (Cat (Chr (chr ".")) (Plus (Class wordOrHyphen)))) w <->
  exists ls, Forall label ls /\ w = dots ls.
Proof.
  rewrite star_matches. split.
  - intros (ws & Hws & ->). induction Hws as [|x ws Hx _ (ls & Hls & E)].
    + exists []. split; [constructor|reflexivity].
    + apply dot_label_matches in Hx as (l & Hl & ->).
      exists (l :: ls). split; [constructor; assumption|].
      unfold dots in *. simpl in *. rewrite E. reflexivity.
  - intros (ls & Hls & ->). induction Hls as [|l ls Hl _ (ws & Hws & E)].
    + exists []. split; [constructor|reflexivity].
    + exists ((lit "." ++ l) :: ws). split.
      * constructor; [apply dot_label_matches; eauto|assumption].
      * unfold dots in *. simpl in *. rewrite E. reflexivity.
Qed.

(** [[\w-]+(\.[\w-]+)+] matches the domain names of two labels or more. *)
Lemma domain_matches h :
  Matches (Cat (Plus (Class wordOrHyphen))
               (Plus (Cat (Chr (chr ".")) (Plus (Class wordOrHyphen))))) h <->
  exists ls, (2 <= length ls)%nat /\ Forall label ls /\ h = dotted ls.
Proof.
  split.
  - intros H. apply cat_inv in H as (l0 & w & -> & H0 & H).
    apply label_matches in H0.
    unfold Plus at 1 in H. apply cat_inv in H as (w1 & w2 & -> & H1 & H2).
    apply dot_label_matches in H1 as (l1 & Hl1 & ->).
    apply dot_labels_matches in H2 as (ls & Hls & ->).
    exists (l0 :: l1 :: ls). split; [simpl; lia|].
    split; [constructor; [assumption|constructor; assumption]|].
    rewrite dotted_cons. reflexivity.
  - intros (ls & Hlen & Hls & ->).
    destruct ls as [|l0 [|l1 ls]]; simpl in Hlen; try lia.
    apply Forall_cons_1 in Hls as [H0 Hls]. apply Forall_cons_1 in Hls as [H1 Hls].
    rewrite dotted_cons. constructor; [apply label_matches; assumption|].
    unfold Plus at 1. apply (MCat _ _ (lit "." ++ l1) (dots ls)).
    + apply dot_label_matches. eauto.
    + apply dot_labels_matches. eauto.
Qed.

Lemma host_matches h :
  Matches (Alt (Lit (lit "localhost"))
               (Cat (Plus (Class wordOrHyphen))
                    (Plus (Cat (Chr (chr ".")) (Plus (Class wordOrHyphen)))))) h <->
  host h.
Proof.
  unfold host. split.
  - intros H. apply alt_inv in H as [H|H].
    + left. apply lit_matches in H. assumption.
    + right. apply domain_matches. assumption.
  - intros [->|H].
    + apply MAltL, lit_matches. reflexivity.
    + apply MAltR, domain_matches. assumption.
Qed.

Lemma port_matches p :
  Matches (Opt (Cat (Chr (chr ":")) (Plus (Class isDigit)))) p <-> port_suffix p.
Proof.
  rewrite opt_matches. unfold port_suffix. split.
  - intros [H| ->]; [right|left; reflexivity].
    apply cat_inv in H as (s1 & s2 & -> & H1 & H2).
    apply chr_inv in H1 as ->. apply plus_class_matches in H2 as [Hne Hd].
    exists s2. auto.
  - intros [->|(ds & Hne & Hd & ->)]; [right; reflexivity|left].
    apply (MCat _ _ (lit ":") ds); [constructor|].
    apply plus_class_matches. auto.
Qed.

Lemma scheme_matches w :
  Matches (Cat (Lit (lit "http")) (Cat (Opt (Chr (chr "s"))) (Lit (lit "://")))) w <->
  w = lit "http://" \/ w = lit "https://".
Proof.
  split.
  - intros H. apply cat_inv in H as (s1 & s2 & -> & H1 & H2).
    apply lit_matches in H1 as ->.
    apply cat_inv in H2 as (o & s3 & -> & H2 & H3).
    apply lit_matches in H3 as ->. apply opt_matches in H2 as [H2| ->].
    + apply chr_inv in H2 as ->. right. reflexivity.
    + left. reflexivity.
  - intros [->| ->].
    + apply (MCat _ _ (lit "http") (lit "://")); [apply lit_matches; reflexivity|].
      apply cat_nil_l; [apply opt_matches; auto|apply lit_matches; reflexivity].
    + apply (MCat _ _ (lit "http") (lit "s://")); [apply lit_matches; reflexivity|].
      apply (MCat _ _ (lit "s") (lit "://")); [|apply lit_matches; reflexivity].
      apply opt_matches. left. constructor.
Qed.

(** The strings the pattern of the form accepts are the URLs of the shape
    [http(s)://host[:port]]. *)
Lemma urlPattern_shape u : test_anchored urlPattern u = true <-> url_shape u.
Proof.
  unfold test_anchored. rewrite fullmatch_spec. unfold urlPattern, url_shape. split.
  - intros H. apply cat_inv in H as (s & w & -> & Hs & H).
    apply cat_inv in H as (h & p & -> & Hh & Hp).
    exists s, h, p. split; [reflexivity|].
    split; [apply scheme_matches; assumption|].
    split; [apply host_matches; assumption|apply port_matches; assumption].
  - intros (s & h & p & -> & Hs & Hh & Hp).
    constructor; [apply scheme_matches; assumption|].
    constructor; [apply host_matches; assumption|apply port_matches; assumption].
Qed.

(** *** The URL field *)

Definition withUrl (u : jsstring) : TSettingsSchema :=
  {| f_url := u; f_apiKey := lit ""; f_modelListVariant := Some (lit "ollama") |}.

(** The four presets pass; a path, a missing scheme, a host of one label
    and a trailing line break do not. *)
Example presets_pass :
  forallb (fun p => test_anchored urlPattern (url p)) urls = true.
Proof. vm_compute. reflexivity. Qed.

Example urls_rejected :
  map (test_anchored urlPattern)
    [ lit "http://localhost:11434/api/tags"; lit "https://api.openai.com/";
      lit "api.openai.com"; lit "ftp://api.openai.com"; lit "http://myserver:8080";
      lit "http://localhost:"; lit "https://api.openai.com" ++ [10%N] ]
  = [false; false; false; false; false; false; false].
Proof. vm_compute. reflexivity. Qed.

Lemma handleSubmit_issues data :
  SettingsSchema data <> [] ->
  handleSubmit data = [ShowErrors (SettingsSchema data)].
Proof.
  intros H. unfold handleSubmit.
  destruct (SettingsSchema data); [congruence|reflexivity].
Qed.

(** C8.  For every base URL that is not of the shape
    [http(s)://host[:port]] with nothing after it, the URL field fails the
    test against the pattern of the form, and the form is not submitted:
    the errors are shown and the settings are not stored. *)
Theorem url_not_of_shape_rejected data :
  ~ url_shape (f_url data) ->
  test_anchored urlPattern (f_url data) = false /\
  In {| path := FUrl;
        message := lit "URL must start with 'http://' or 'https://' followed by a domain name, without any trailing path." |}
     (SettingsSchema data) /\
  handleSubmit data = [ShowErrors (SettingsSchema data)] /\
  submitted (handleSubmit data) = false.
Proof.
  intros Hn.
  assert (Ht : test_anchored urlPattern (f_url data) = false).
  { destruct (test_anchored urlPattern (f_url data)) eqn:E; [|reflexivity].
    apply urlPattern_shape in E. contradiction. }
  assert (Hi : SettingsSchema data =
               {| path := FUrl;
                  message := lit "URL must start with 'http://' or 'https://' followed by a domain name, without any trailing path." |}
               :: apiKey_check (f_apiKey data)
                  ++ modelListVariant_check (f_modelListVariant data)).
  { unfold SettingsSchema, url_check. rewrite Ht. reflexivity. }
  split; [assumption|]. split; [rewrite Hi; left; reflexivity|].
  assert (Hs : handleSubmit data = [ShowErrors (SettingsSchema data)])
    by (apply handleSubmit_issues; rewrite Hi; discriminate).
  split; [assumption|]. rewrite Hs. reflexivity.
Qed.

Lemma url_not_of_shape_rejected_witness :
  ~ url_shape (f_url (withUrl (lit "http://localhost:11434/api/tags"))) /\
  submitted (handleSubmit (withUrl (lit "http://localhost:11434/api/tags"))) = false.
Proof.
  assert (Hn : ~ url_shape (f_url (withUrl (lit "http://localhost:11434/api/tags")))).
  { intros H. apply urlPattern_shape in H. vm_compute in H. discriminate H. }
  split; [exact Hn|].
  apply (url_not_of_shape_rejected (withUrl (lit "http://localhost:11434/api/tags")) Hn).
Defined.

(** *** The API key field *)

Definition withKey (k : jsstring) : TSettingsSchema :=
  {| f_url := lit "https://api.openai.com"; f_apiKey := k;
     f_modelListVariant := Some (lit "openai") |}.

Lemma literal_empty_length k : literal_empty k = true <-> jslength k = 0.
Proof.
  unfold literal_empty, jslength. rewrite str_eqb_eq.
  destruct k; simpl; split; intros H; congruence || lia.
Qed.

Lemma apiKey_check_ok k :
  apiKey_check k = [] <-> jslength k = 0 \/ 5 <= jslength k.
Proof.
  unfold apiKey_check, string_min5.
  destruct (Z.leb_spec 5 (jslength k)) as [H5|H5]; simpl.
  - split; auto.
  - destruct (literal_empty k) eqn:E.
    + apply literal_empty_length in E. split; auto.
    + split; [discriminate|]. intros [H0|H]; [|lia].
      apply literal_empty_length in H0. congruence.
Qed.

(** C7.  The API key field passes validation exactly when the key is
    empty or has at least 5 characters; for every key of 1 to 4
    characters the form is not submitted. *)
Theorem apiKey_validation data :
  (apiKey_check (f_apiKey data) = [] <->
   jslength (f_apiKey data) = 0 \/ 5 <= jslength (f_apiKey data)) /\
  (1 <= jslength (f_apiKey data) <= 4 ->
   In {| path := FApiKey; message := lit "API Key must be at least 5 characters long." |}
      (SettingsSchema data) /\
   handleSubmit data = [ShowErrors (SettingsSchema data)] /\
   submitted (handleSubmit data) = false).
Proof.
  split; [apply apiKey_check_ok|]. intros Hlen.
  assert (Hk : apiKey_check (f_apiKey data) =
               [ {| path := FApiKey;
                    message := lit "API Key must be at least 5 characters long." |} ]).
  { pose proof (apiKey_check_ok (f_apiKey data)) as Hiff.
    unfold apiKey_check in *.
    destruct (string_min5 (f_apiKey data) || literal_empty (f_apiKey data));
      [|reflexivity].
    destruct Hiff as [Hiff _]. specialize (Hiff eq_refl). lia. }
  assert (Hin : In {| path := FApiKey;
                      message := lit "API Key must be at least 5 characters long." |}
                   (SettingsSchema data)).
  { unfold SettingsSchema. rewrite Hk. apply in_or_app. right. left. reflexivity. }
  split; [assumption|].
  assert (Hs : handleSubmit data = [ShowErrors (SettingsSchema data)]).
  { apply handleSubmit_issues. intros E. rewrite E in Hin. destruct Hin. }
  split; [assumption|]. rewrite Hs. reflexivity.
Qed.

Lemma apiKey_validation_witness :
  1 <= jslength (f_apiKey (withKey (lit "abcd"))) <= 4 /\
  submitted (handleSubmit (withKey (lit "abcd"))) = false /\
  apiKey_check (f_apiKey (withKey (lit ""))) = [] /\
  apiKey_check (f_apiKey (withKey (lit "sk-12"))) = [].
Proof.
  assert (H4 : 1 <= jslength (f_apiKey (withKey (lit "abcd"))) <= 4) by (vm_compute; split; discriminate).
  assert (H0 : jslength (f_apiKey (withKey (lit ""))) = 0 \/
               5 <= jslength (f_apiKey (withKey (lit "")))) by (left; reflexivity).
  assert (H5 : jslength (f_apiKey (withKey (lit "sk-12"))) = 0 \/
               5 <= jslength (f_apiKey (withKey (lit "sk-12"))))
    by (right; vm_compute; discriminate).
  split; [exact H4|].
  split; [exact (proj2 (proj2 (proj2 (apiKey_validation (withKey (lit "abcd"))) H4)))|].
  split.
  - exact (proj2 (proj1 (apiKey_validation (withKey (lit "")))) H0).
  - exact (proj2 (proj1 (apiKey_validation (withKey (lit "sk-12")))) H5).
Defined.

(** A form that passes is submitted: the settings are stored and the
    dialog is closed. *)
Example valid_form_submitted :
  handleSubmit (withKey (lit "sk-12345")) =
  [SetSettings (lit "openai") (lit "https://api.openai.com") (lit "sk-12345");
   SetDialogOpen false].
Proof. vm_compute. reflexivity. Qed.

(** *** The preset badges *)

Definition blank : TSettingsSchema :=
  {| f_url := lit ""; f_apiKey := lit ""; f_modelListVariant := None |}.

Definition localhostPreset : preset :=
  {| url := lit "http://localhost:11434"; modelType := lit "ollama" |}.




End SettingsFormSpec.

(** ** Model list *)

Module ModelListSpec.
Import ModelList.

Section Resolver.
Variable getTag : jsstring -> bool -> settled (list TTag).
Variable getModelList : jsstring -> jsstring -> bool -> settled (list TModel).

Lemma queryFn_unrecognized v baseUrl token embeddedOnly :
  v <> lit "ollama" -> v <> lit "openai" ->
  queryFn getTag getModelList v baseUrl token embeddedOnly = ([], Resolved []).
Proof.
  intros Ho Ha. unfold queryFn.
  destruct (str_eqb v (lit "ollama")) eqn:E1; [apply str_eqb_eq in E1; contradiction|].
  destruct (str_eqb v (lit "openai")) eqn:E2; [apply str_eqb_eq in E2; contradiction|].
  destruct (str_eqb v (lit "manual")); reflexivity.
Qed.

(** C4.  With the variant "manual" the result is the empty list and no
    network call is made; so it is with every variant that is neither
    "ollama" nor "openai".  With "ollama" the tag listing is called once,
    and each of its models becomes a descriptor with the name of the model
    as [id], "model" as [object], 0 as [created] and [null] as [type], in
    the same order.  With "openai" the model listing is called once, and
    its descriptors are the result. *)
Theorem model_list_resolution baseUrl token embeddedOnly :
  queryFn getTag getModelList (lit "manual") baseUrl token embeddedOnly
    = ([], Resolved []) /\
  (forall v, v <> lit "ollama" -> v <> lit "openai" ->
     queryFn getTag getModelList v baseUrl token embeddedOnly = ([], Resolved [])) /\
  (fst (queryFn getTag getModelList (lit "ollama") baseUrl token embeddedOnly)
     = [GetTag baseUrl embeddedOnly] /\
   forall tags, getTag baseUrl embeddedOnly = Resolved tags ->
     exists models,
       snd (queryFn getTag getModelList (lit "ollama") baseUrl token embeddedOnly)
         = Resolved models /\
       map id models = map name tags /\
       Forall (fun m => object m = lit "model" /\ created m = 0 /\ type m = None) models) /\
  queryFn getTag getModelList (lit "openai") baseUrl token embeddedOnly
    = ([GetModelList baseUrl token embeddedOnly], getModelList baseUrl token embeddedOnly).
Proof.
  split; [reflexivity|].
  split; [intros v H1 H2; apply queryFn_unrecognized; assumption|].
  split; [|reflexivity]. split; [reflexivity|].
  intros tags Ht.
  change (queryFn getTag getModelList (lit "ollama") baseUrl token embeddedOnly)
    with ([GetTag baseUrl embeddedOnly],
          match getTag baseUrl embeddedOnly with
          | Resolved models =>
              Resolved (map (fun model =>
                {| id := name model; object := lit "model"; created := 0; type := None |})
                models)
          | Rejected => Rejected
          end).
  rewrite Ht. eexists. split; [reflexivity|]. split.
  - rewrite map_map. reflexivity.
  - clear Ht. induction tags as [|t tags IH]; simpl; constructor;
      [repeat split; reflexivity|exact IH].
Qed.

End Resolver.

(** Two backends to try the hook on. *)
Definition twoTags (_ : jsstring) (_ : bool) : settled (list TTag) :=
  Resolved [ {| name := lit "llama3:8b" |}; {| name := lit "nomic-embed-text" |} ].

Definition oneModel (_ _ : jsstring) (_ : bool) : settled (list TModel) :=
  Resolved [ {| id := lit "gpt-4"; object := lit "model"; created := 1687882411;
                type := Some (lit "chat") |} ].

Lemma model_list_resolution_witness :
  lit "azure" <> lit "ollama" /\ lit "azure" <> lit "openai" /\
  queryFn twoTags oneModel (lit "azure") (lit "http://localhost:11434") (lit "") false
    = ([], Resolved []) /\
  twoTags (lit "http://localhost:11434") false
    = Resolved [ {| name := lit "llama3:8b" |}; {| name := lit "nomic-embed-text" |} ] /\
  exists models,
    snd (queryFn twoTags oneModel (lit "ollama") (lit "http://localhost:11434") (lit "") false)
      = Resolved models /\
    map id models = [lit "llama3:8b"; lit "nomic-embed-text"].
Proof.
  assert (H1 : lit "azure" <> lit "ollama") by (vm_compute; discriminate).
  assert (H2 : lit "azure" <> lit "openai") by (vm_compute; discriminate).
  pose proof (model_list_resolution twoTags oneModel (lit "http://localhost:11434") (lit "") false)
    as (_ & Hu & (_ & Ho) & _).
  split; [exact H1|]. split; [exact H2|].
  split; [exact (Hu (lit "azure") H1 H2)|].
  split; [reflexivity|].
  destruct (Ho _ eq_refl) as (models & Hm & Hid & _).
  exists models. split; [exact Hm|exact Hid].
Defined.

Example ollama_models :
  queryFn twoTags oneModel (lit "ollama") (lit "http://localhost:11434") (lit "") false
  = ( [GetTag (lit "http://localhost:11434") false],
      Resolved [ {| id := lit "llama3:8b"; object := lit "model"; created := 0; type := None |};
                 {| id := lit "nomic-embed-text"; object := lit "model"; created := 0;
                    type := None |} ] ).
Proof. vm_compute. reflexivity. Qed.

End ModelListSpec.

(** ** The upload route *)

Module DocumentsSpec.
Import FileAPI Documents.

Lemma max_id_ge rs r : In r rs -> id r <= max_id rs.
Proof.
  induction rs as [|x rs IH]; simpl; [tauto|].
  intros [->|H]; [lia|]. specialize (IH H). lia.
Qed.

(** The id of an inserted row is above every id of the table. *)
Lemma insert_fresh now filename fileSize t :
  exists row,
    rows (insert now filename fileSize t) = rows t ++ [row] /\
    Documents.filename row = filename /\ Documents.fileSize row = Some fileSize /\
    timestamp row = now /\ isEmbedded row = false /\ embedModel row = Some (lit "") /\
    id row = sequence (insert now filename fileSize t) /\
    sequence t < id row /\
    (forall r, In r (rows t) -> id r < id row).
Proof.
  eexists. split; [reflexivity|]. simpl. repeat split; try lia.
  intros r Hr. apply max_id_ge in Hr. lia.
Qed.

Definition emptyServer : ServerState :=
  {| disk := ∅; table := {| rows := []; sequence := 0 |} |}.

Definition notes (text : String.string) : File :=
  {| name := lit "notes.txt"; type := lit "text/plain";
     size := Z.of_nat (String.length text);
     content := list_byte_of_string text |}.

Definition named (n text : String.string) : File :=
  {| name := lit n; type := lit "text/plain";
     size := Z.of_nat (String.length text);
     content := list_byte_of_string text |}.

(** The paths of some names, resolved. *)
Example lexical_paths :
  map (fun n => Paths.lexical (lit "./uploads/" ++ lit n))
    [ "notes.txt"; "./notes.txt"; "a//b.txt"; "sub/../notes.txt"; "../x";
      "../../etc/passwd" ]%string
  = map lit
    [ "uploads/notes.txt"; "uploads/notes.txt"; "uploads/a/b.txt"; "uploads/notes.txt";
      "x"; "../etc/passwd" ]%string.
Proof. vm_compute. reflexivity. Qed.

(** A File named [sub/notes.txt] whose write is rejected (there is no
    directory [./uploads/sub]): the handler throws, and there is no
    response. *)
Lemma POST_throws_when_write_fails :
  ~ answers_400_or_200 Paths.lexical (lit "2024-05-01 10:00:00") (WriteFileRejects None)
      [(lit "file", EntryFile (named "sub/notes.txt" "hello"))] emptyServer.
Proof.
  unfold answers_400_or_200.
  change (get [(lit "file", EntryFile (named "sub/notes.txt" "hello"))] (lit "file"))
    with (Some (EntryFile (named "sub/notes.txt" "hello"))).
  intros (chunks & st' & H & _). discriminate H.
Qed.

(** C6, as the code has it.  For every request: when the form data has no
    field [file], or a string there, the response has status 400 and the
    plain text "No file uploaded", and the disk and the table are as
    before.  When the field holds a File and reading it, writing it and the
    insert all resolve, the response has status 200 and its body streams
    the bytes of the file, and nothing else.  When one of the three
    rejects, the handler throws: it returns no response. *)
Theorem POST_response resolve now io formData st :
  match get formData (lit "file") with
  | Some (EntryFile file) =>
      match io with
      | NoRejection =>
          exists st',
            POST resolve now io formData st
              = (Responded {| status := 200; body := StreamBody [content file] |}, st') /\
            body_bytes (StreamBody [content file]) = Some (content file)
      | _ => fst (POST resolve now io formData st) = Threw
      end
  | _ =>
      POST resolve now io formData st
        = (Responded {| status := 400; body := TextBody (lit "No file uploaded") |}, st)
  end.
Proof.
  unfold POST. destruct (get formData (lit "file")) as [[s|file]|]; try reflexivity.
  destruct io as [| |[partial|]|]; try reflexivity.
  eexists. split; [reflexivity|]. simpl. rewrite app_nil_r. reflexivity.
Qed.

(** A request that is answered with 200 has a File, and nothing rejected
    while it was handled. *)
Lemma POST_200 resolve now io formData st resp st' :
  POST resolve now io formData st = (Responded resp, st') -> status resp = 200 ->
  exists file,
    get formData (lit "file") = Some (EntryFile file) /\ io = NoRejection /\
    resp = {| status := 200; body := StreamBody [content file] |} /\
    st' = {| disk := <[resolve (lit "./uploads/" ++ name file) := content file]> (disk st);
             table := insert now (name file) (size file) (table st) |}.
Proof.
  unfold POST. intros H Hs.
  destruct (get formData (lit "file")) as [[s|file]|].
  - injection H as <- <-. discriminate Hs.
  - exists file. destruct io as [| |[partial|]|]; try discriminate H.
    injection H as <- <-. auto.
  - injection H as <- <-. discriminate Hs.
Qed.

(** C10.  The route does not look at the rows of the table: for every
    request that is answered with 200, whatever the state (a row of the
    same filename or not), a row is appended with an id above every id of
    the table, the name and the size of the file, [isEmbedded] false and
    [embedModel] empty; and the file that [./uploads/<name>] resolves to
    holds the bytes of the request, whatever it held before. *)
Theorem POST_inserts_and_overwrites resolve now io formData st resp st' :
  POST resolve now io formData st = (Responded resp, st') -> status resp = 200 ->
  exists file row,
    get formData (lit "file") = Some (EntryFile file) /\
    rows (table st') = rows (table st) ++ [row] /\
    filename row = name file /\ fileSize row = Some (size file) /\
    isEmbedded row = false /\ embedModel row = Some (lit "") /\
    (forall r, In r (rows (table st)) -> id r < id row) /\
    disk st' = <[resolve (lit "./uploads/" ++ name file) := content file]> (disk st) /\
    disk st' !! resolve (lit "./uploads/" ++ name file) = Some (content file).
Proof.
  intros H Hs. destruct (POST_200 _ _ _ _ _ _ _ H Hs) as (file & Hg & _ & _ & ->).
  destruct (insert_fresh now (name file) (size file) (table st))
    as (row & Hrows & Hn & Hsz & _ & He & Hm & _ & _ & Hfresh).
  exists file, row. split; [exact Hg|]. cbn [table disk].
  split; [exact Hrows|]. repeat (split; [assumption|]).
  split; [reflexivity|]. apply lookup_insert_eq.
Qed.

Lemma POST_inserts_and_overwrites_witness :
  POST Paths.lexical (lit "t1") NoRejection [(lit "file", EntryFile (notes "first"))] emptyServer
    = ( Responded {| status := 200; body := StreamBody [content (notes "first")] |},
        snd (POST Paths.lexical (lit "t1") NoRejection
               [(lit "file", EntryFile (notes "first"))] emptyServer) ) /\
  status {| status := 200; body := StreamBody [content (notes "first")] |} = 200 /\
  exists file row,
    get [(lit "file", EntryFile (notes "first"))] (lit "file") = Some (EntryFile file) /\
    rows (table (snd (POST Paths.lexical (lit "t1") NoRejection
                        [(lit "file", EntryFile (notes "first"))] emptyServer)))
      = rows (table emptyServer) ++ [row] /\
    filename row = name file.
Proof.
  split; [reflexivity|]. split; [reflexivity|].
  destruct (POST_inserts_and_overwrites Paths.lexical (lit "t1") NoRejection
              [(lit "file", EntryFile (notes "first"))] emptyServer _ _ eq_refl eq_refl)
    as (file & row & Hg & Hr & Hn & _).
  exists file, row. auto.
Defined.

Definition twice (second : String.string) : ServerState :=
  let st1 := snd (POST Paths.lexical (lit "t1") NoRejection
                    [(lit "file", EntryFile (notes "first"))] emptyServer) in
  snd (POST Paths.lexical (lit "t2") NoRejection
         [(lit "file", EntryFile (named second "second!"))] st1).

(** Two uploads under one name: two rows, one file. *)
Example same_name_twice :
  map (fun r => (id r, filename r, fileSize r)) (rows (table (twice "notes.txt")))
    = [ (1, lit "notes.txt", Some 5); (2, lit "notes.txt", Some 7) ] /\
  disk (twice "notes.txt") !! lit "uploads/notes.txt"
    = Some (list_byte_of_string "second!") /\
  dom (disk (twice "notes.txt")) = {[ lit "uploads/notes.txt" ]}.
Proof.
  assert (E : Paths.lexical (lit "./uploads/notes.txt") = lit "uploads/notes.txt")
    by (vm_compute; reflexivity).
  unfold twice, POST, writeFile.
  change (get [(lit "file", EntryFile (notes "first"))] (lit "file"))
    with (Some (EntryFile (notes "first"))).
  change (get [(lit "file", EntryFile (named "notes.txt" "second!"))] (lit "file"))
    with (Some (EntryFile (named "notes.txt" "second!"))).
  cbn [snd disk table name named notes content size].
  change (lit "./uploads/" ++ lit "notes.txt") with (lit "./uploads/notes.txt").
  rewrite E. split; [reflexivity|]. split.
  - apply lookup_insert_eq.
  - rewrite insert_insert_eq, dom_insert_L. set_solver.
Qed.

(** Two names of one file: an upload named [./notes.txt] replaces the
    content of [notes.txt]; the table has a row for each name. *)
Example two_names_of_one_file :
  map (fun r => (id r, filename r, fileSize r)) (rows (table (twice "./notes.txt")))
    = [ (1, lit "notes.txt", Some 5); (2, lit "./notes.txt", Some 7) ] /\
  disk (twice "./notes.txt") !! Paths.lexical (lit "./uploads/notes.txt")
    = Some (list_byte_of_string "second!").
Proof.
  assert (E1 : Paths.lexical (lit "./uploads/notes.txt") = lit "uploads/notes.txt")
    by (vm_compute; reflexivity).
  assert (E2 : Paths.lexical (lit "./uploads/./notes.txt") = lit "uploads/notes.txt")
    by (vm_compute; reflexivity).
  unfold twice, POST, writeFile.
  change (get [(lit "file", EntryFile (notes "first"))] (lit "file"))
    with (Some (EntryFile (notes "first"))).
  change (get [(lit "file", EntryFile (named "./notes.txt" "second!"))] (lit "file"))
    with (Some (EntryFile (named "./notes.txt" "second!"))).
  cbn [snd disk table name named notes content size].
  change (lit "./uploads/" ++ lit "notes.txt") with (lit "./uploads/notes.txt").
  change (lit "./uploads/" ++ lit "./notes.txt") with (lit "./uploads/./notes.txt").
  rewrite E1, E2. split; [reflexivity|]. apply lookup_insert_eq.
Qed.

(** A string in the field [file], the empty one or not, is no File. *)
Example string_field_rejected :
  fst (POST Paths.lexical (lit "t") NoRejection
         [(lit "file", EntryString (lit "notes.txt"))] emptyServer)
    = Responded {| status := 400; body := TextBody (lit "No file uploaded") |} /\
  fst (POST Paths.lexical (lit "t") NoRejection
         [(lit "other", EntryFile (notes "x"))] emptyServer)
    = Responded {| status := 400; body := TextBody (lit "No file uploaded") |}.
Proof. split; reflexivity. Qed.

(** An insert that is rejected after the write: the file is on disk, the
    table has no row of it, and there is no response. *)
Example insert_rejected :
  POST Paths.lexical (lit "t") InsertRejects
    [(lit "file", EntryFile (notes "first"))] emptyServer
  = ( Threw,
      {| disk := <[Paths.lexical (lit "./uploads/notes.txt") := list_byte_of_string "first"]> ∅;
         table := {| rows := []; sequence := 0 |} |} ).
Proof. reflexivity. Qed.

End DocumentsSpec.

(** ** Upload page *)

Module UploadPageSpec.
Import FileAPI UploadPage.

(** *** Validation before the upload *)

Lemma includes_document_type t :
  includes [lit "application/pdf"; lit "text/plain"] t = true <->
  t = lit "application/pdf" \/ t = lit "text/plain".
Proof.
  unfold includes. simpl. rewrite !orb_true_iff, !str_eqb_eq. intuition congruence.
Qed.

Lemma formSchema_ok file :
  formSchema (AFile file) = [] <->
  size file <= 30 * 1024 * 1024 /\
  (type file = lit "application/pdf" \/ type file = lit "text/plain").
Proof.
  unfold formSchema, transform, superRefine, maxFileSizeMb.
  pose proof (includes_document_type (type file)) as Hi.
  destruct (Z.gtb_spec (size file) (30 * 1024 * 1024)) as [Hgt|Hle];
    destruct (includes [lit "application/pdf"; lit "text/plain"] (type file));
    cbn [negb app]; split; intros H.
  - discriminate H.
  - lia.
  - discriminate H.
  - lia.
  - split; [lia|apply Hi; reflexivity].
  - reflexivity.
  - discriminate H.
  - destruct H as [_ H]. apply Hi in H. discriminate H.
Qed.

Lemma fetches_app t1 t2 : fetches (t1 ++ t2) = fetches t1 ++ fetches t2.
Proof. unfold fetches. apply filter_app. Qed.

(** C5.  For every file selected: if its size is above 30 MB or its type
    is neither application/pdf nor text/plain, the schema reports an issue,
    the field shows its message and no network call is made, whether the
    file comes from the drop zone or the form is submitted; a pdf or
    plain-text file of at most 30 MB has no issue and is posted to
    [/api/documents]. *)
Theorem file_validation file r :
  (size file > 30 * 1024 * 1024 \/
   (type file <> lit "application/pdf" /\ type file <> lit "text/plain") ->
   exists message,
     head (formSchema (AFile file)) = Some message /\
     onFileSelected file r = [SetFormValue file; FieldError message] /\
     handleSubmit (AFile file) r = [FieldError message] /\
     fetches (onFileSelected file r) = [] /\
     fetches (handleSubmit (AFile file) r) = []) /\
  (size file <= 30 * 1024 * 1024 ->
   type file = lit "application/pdf" \/ type file = lit "text/plain" ->
   formSchema (AFile file) = [] /\
   fetches (onFileSelected file r)
     = [Fetch (lit "/api/documents") (lit "POST") file (name file)]).
Proof.
  split.
  - intros Hbad.
    assert (Hne : formSchema (AFile file) <> []).
    { intros E. apply formSchema_ok in E as [Hs Ht].
      destruct Hbad as [Hgt|[Hp Hx]]; [lia|]. destruct Ht; contradiction. }
    unfold onFileSelected, handleSubmit.
    destruct (formSchema (AFile file)) as [|message rest]; [congruence|].
    exists message. repeat split; reflexivity.
  - intros Hs Ht.
    assert (E : formSchema (AFile file) = []) by (apply formSchema_ok; auto).
    split; [exact E|].
    unfold onFileSelected, handleSubmit. rewrite E. simpl transform. cbv iota.
    unfold onSubmit.
    assert (Ht' : fetches (tryUpload file r) = []).
    { unfold tryUpload. destruct r as [|status body]; [reflexivity|].
      destruct (negb (ok status)); [reflexivity|].
      destruct body as [[chunks e]|]; [|reflexivity].
      rewrite fetches_app.
      assert (Hl : forall n, fetches (snd (readLoop (size file) n chunks)) = []).
      { induction chunks as [|c chunks IH]; intros n; simpl; [reflexivity|].
        specialize (IH (n + Z.of_nat (length c))).
        destruct (readLoop (size file) (n + Z.of_nat (length c)) chunks) as [final t].
        simpl in *. exact IH. }
      rewrite Hl. destruct e; reflexivity. }
    change (fetches (SetFormValue file ::
              [SetFilename (name file); SetFilesize (size file);
               SetFileLoading true; SetFadeOut false] ++
              [SetFileLoading true; SetFilename (name file); SetFilesize (size file);
               Fetch (lit "/api/documents") (lit "POST") file (name file)] ++
              tryUpload file r ++ finallyUpload file)
            = [Fetch (lit "/api/documents") (lit "POST") file (name file)]).
    change (Fetch (lit "/api/documents") (lit "POST") file (name file)
              :: fetches (tryUpload file r ++ finallyUpload file)
            = [Fetch (lit "/api/documents") (lit "POST") file (name file)]).
    rewrite fetches_app, Ht'. reflexivity.
Qed.

Definition report : File :=
  {| name := lit "report.txt"; type := lit "text/plain"; size := 11;
     content := list_byte_of_string "hello world" |}.

Definition program : File :=
  {| name := lit "setup.exe"; type := lit "application/x-msdownload"; size := 4;
     content := list_byte_of_string "MZ  " |}.

Lemma file_validation_witness :
  (size program > 30 * 1024 * 1024 \/
   (type program <> lit "application/pdf" /\ type program <> lit "text/plain")) /\
  fetches (onFileSelected program FetchRejected) = [] /\
  size report <= 30 * 1024 * 1024 /\
  (type report = lit "application/pdf" \/ type report = lit "text/plain") /\
  fetches (onFileSelected report FetchRejected)
    = [Fetch (lit "/api/documents") (lit "POST") report (name report)].
Proof.
  assert (Hbad : size program > 30 * 1024 * 1024 \/
                 (type program <> lit "application/pdf" /\ type program <> lit "text/plain")).
  { right. split; vm_compute; discriminate. }
  assert (Hs : size report <= 30 * 1024 * 1024) by (vm_compute; discriminate).
  assert (Ht : type report = lit "application/pdf" \/ type report = lit "text/plain")
    by (right; reflexivity).
  split; [exact Hbad|]. split.
  - destruct (proj1 (file_validation program FetchRejected) Hbad)
      as (message & _ & _ & _ & Hf & _). exact Hf.
  - split; [exact Hs|]. split; [exact Ht|].
    exact (proj2 (proj2 (file_validation report FetchRejected) Hs Ht)).
Defined.

(** Both issues of a file that is too large and of the wrong type; the
    field shows the first. *)
Example both_issues :
  formSchema (AFile {| name := lit "movie.mp4"; type := lit "video/mp4";
                       size := 30 * 1024 * 1024 + 1; content := [] |})
  = [lit "Max file size allowed is 30MB"; lit "File must be an document (pdf, txt)"].
Proof. vm_compute. reflexivity. Qed.

(** *** The end of every upload *)

(** The upload did not go through: [fetch] rejected, the response was not
    ok, or the stream broke. *)
Definition uploadFailed (r : fetch_result) : bool :=
  match r with
  | FetchRejected => true
  | FetchResponse status body =>
      negb (ok status) ||
      match body with
      | Some (_, StreamError) => true
      | _ => false
      end
  end.

Definition is_progress (x : effect) : Prop :=
  match x with UpdateProgress _ => True | _ => False end.

Lemma readLoop_progress_only fileSize chunks :
  forall n, Forall is_progress (snd (readLoop fileSize n chunks)).
Proof.
  induction chunks as [|c chunks IH]; intros n; simpl; [constructor|].
  specialize (IH (n + Z.of_nat (length c))).
  destruct (readLoop fileSize (n + Z.of_nat (length c)) chunks) as [final t].
  simpl in *. constructor; [exact I|exact IH].
Qed.

Definition is_announcement (x : effect) : Prop :=
  match x with ToastSuccess _ _ | SetTimeout _ _ => True | _ => False end.

Lemma tryUpload_quiet file r : Forall (fun x => ~ is_announcement x) (tryUpload file r).
Proof.
  unfold tryUpload. destruct r as [|status body].
  - repeat constructor. simpl. tauto.
  - destruct (negb (ok status)); [repeat constructor; simpl; tauto|].
    destruct body as [[chunks e]|]; [|constructor].
    apply Forall_app. split.
    + eapply Forall_impl; [apply readLoop_progress_only|].
      intros x Hx. destruct x; simpl in *; tauto.
    + destruct e; repeat constructor. simpl. tauto.
Qed.

Lemma tryUpload_failed file r : uploadFailed r = true -> In ConsoleError (tryUpload file r).
Proof.
  unfold uploadFailed, tryUpload. destruct r as [|status body]; [intros _; left; reflexivity|].
  destruct (negb (ok status)); simpl; [intros _; left; reflexivity|].
  destruct body as [[chunks [|]]|]; try discriminate.
  intros _. apply in_or_app. right. left. reflexivity.
Qed.

(** C2.  Whatever [fetch] gives (a rejection, a response that is not ok,
    no body, a stream that breaks or one that ends), [onSubmit] ends with
    the success notification naming the file, a timer of 2000 ms that
    fades the progress UI out, and a timer of 3000 ms that resets it
    (loading off, name empty, size 0, progress 0); nothing before them is
    a notification or a timer.  When the upload failed the error is
    logged, and the success notification is shown all the same. *)
Theorem onSubmit_announces_success file r :
  exists before,
    onSubmit file r =
      before ++
      [ ToastSuccess (lit "Document uploaded successfully!") (lit "File: " ++ name file);
        SetTimeout 2000 [SetFadeOut true];
        SetTimeout 3000 [SetFileLoading false; SetFilename (lit ""); SetFilesize 0;
                         UpdateProgress (Num.of_Z 0)] ] /\
    Forall (fun x => ~ is_announcement x) before /\
    (uploadFailed r = true -> In ConsoleError before).
Proof.
  exists ([ SetFileLoading true; SetFilename (name file); SetFilesize (size file);
            Fetch (lit "/api/documents") (lit "POST") file (name file) ]
          ++ tryUpload file r).
  split; [|split].
  - unfold onSubmit, finallyUpload. rewrite <- app_assoc. reflexivity.
  - apply Forall_app. split; [|apply tryUpload_quiet].
    repeat constructor; simpl; tauto.
  - intros Hf. apply in_or_app. right. apply tryUpload_failed. exact Hf.
Qed.

Lemma onSubmit_announces_success_witness :
  uploadFailed FetchRejected = true /\
  exists before,
    onSubmit report FetchRejected =
      before ++
      [ ToastSuccess (lit "Document uploaded successfully!") (lit "File: report.txt");
        SetTimeout 2000 [SetFadeOut true];
        SetTimeout 3000 [SetFileLoading false; SetFilename (lit ""); SetFilesize 0;
                         UpdateProgress (Num.of_Z 0)] ] /\
    In ConsoleError before.
Proof.
  split; [reflexivity|].
  destruct (onSubmit_announces_success report FetchRejected) as (before & E & _ & Hf).
  exists before. split; [exact E|exact (Hf eq_refl)].
Defined.

(** *** The round trip of the bytes *)

(** The bytes of the chunks, counted. *)
Definition total (chunks : list (list Byte.byte)) : Z :=
  Z.of_nat (length (concat chunks)).

Lemma total_cons c chunks : total (c :: chunks) = Z.of_nat (length c) + total chunks.
Proof. unfold total. simpl. rewrite length_app. lia. Qed.

Lemma readLoop_cons fileSize n c rest :
  readLoop fileSize n (c :: rest) =
  ( fst (readLoop fileSize (n + Z.of_nat (length c)) rest),
    UpdateProgress (step (n + Z.of_nat (length c)) fileSize)
      :: snd (readLoop fileSize (n + Z.of_nat (length c)) rest) ).
Proof.
  simpl. destruct (readLoop fileSize (n + Z.of_nat (length c)) rest). reflexivity.
Qed.

Lemma lastProgress_cons v t :
  lastProgress (UpdateProgress v :: t) =
  match lastProgress t with Some y => Some y | None => Some v end.
Proof. unfold lastProgress. simpl. apply last_cons. Qed.



(** The loop in closed form: one update for each chunk, the k-th with the
    step of the bytes of the first k chunks. *)
Lemma readLoop_closed fileSize chunks : forall n,
  fst (readLoop fileSize n chunks) = n + total chunks /\
  snd (readLoop fileSize n chunks)
    = map (fun k => UpdateProgress (step (n + total (take k chunks)) fileSize))
          (seq 1 (length chunks)).
Proof.
  induction chunks as [|c chunks IH]; intros n.
  - unfold total. simpl. split; [lia|reflexivity].
  - rewrite readLoop_cons, total_cons. cbn [fst snd].
    destruct (IH (n + Z.of_nat (length c))) as [Hf Hs]. split; [lia|].
    rewrite Hs. cbn [length seq map]. f_equal.
    + unfold total. simpl. rewrite app_nil_r. reflexivity.
    + rewrite <- (seq_shift (length chunks) 1), map_map. apply map_ext. intros k.
      cbn [take]. rewrite total_cons. f_equal. f_equal. lia.
Qed.






(** The steps of a file of 11 bytes received in chunks of 5, 0 and 6
    bytes: 45.0 (0.45 * 100 is exact), the same again, then 100. *)
Example progress_of_report :
  snd (readLoop 11 0 [list_byte_of_string "hello"; []; list_byte_of_string " world"])
  = [ UpdateProgress (Num.of_Z 45); UpdateProgress (Num.of_Z 45);
      UpdateProgress (Num.of_Z 100) ].
Proof. vm_compute. reflexivity. Qed.

(** The step is a binary64 value: at 7 of 100 bytes it is
    7.000000000000001, not 7. *)
Example step_7_of_100 :
  step 7 100 = S754_finite false 7881299347898369 (-50) /\ step 7 100 <> Num.of_Z 7.
Proof. split; [vm_compute; reflexivity|vm_compute; discriminate]. Qed.

End UploadPageSpec.

(** ** More on the chat input *)

Module ChatInputMore.
Import ChatInput ChatInputView.

Lemma trimStart_blank s :
  Forall (fun c => isWhiteSpace c = true) s -> trimStart s = [].
Proof.
  induction 1 as [|c s Hc _ IH]; simpl; [reflexivity|]. rewrite Hc. exact IH.
Qed.

Lemma trim_blank s : Forall (fun c => isWhiteSpace c = true) s -> trim s = [].
Proof. intros H. unfold trim. rewrite (trimStart_blank s H). reflexivity. Qed.

(** X1.  [sendChat] clears the input and sends one text: the input without
    the white space at its two ends.  The text sent neither starts nor ends
    with white space, and white space inside it is kept. *)
Theorem sendChat_sends_trimmed chatInput :
  exists s,
    sendChat chatInput = [SetChatInput []; OnSendInput s] /\
    (exists a b,
       Forall (fun c => isWhiteSpace c = true) a /\
       Forall (fun c => isWhiteSpace c = true) b /\
       chatInput = a ++ s ++ b) /\
    (forall c r, s = c :: r -> isWhiteSpace c = false) /\
    (forall c r, s = r ++ [c] -> isWhiteSpace c = false).
Proof.
  exists (trim chatInput). split; [reflexivity|]. apply JSFacts.trim_spec.
Qed.

(** X2.  There is no check for an empty message: when the input is empty
    or white space only and sending is not blocked, Enter sends the empty
    string. *)
Theorem blank_input_is_sent p chatInput e :
  key e = lit "Enter" -> shiftKey e = false -> sendDisabled p = false ->
  Forall (fun c => isWhiteSpace c = true) chatInput ->
  sends (keyPress p chatInput e) = [ [] ].
Proof.
  intros Hk Hs Hd Hb.
  unfold keyPress, preventEnterPress, chatEnterPress, sendChat, sendDisabled in *.
  rewrite Hk, Hs, (trim_blank _ Hb).
  destruct (isStreamProcessing p), (isFetchLoading p), (isLlmModelActive p);
    try discriminate Hd; reflexivity.
Qed.

Lemma blank_input_is_sent_witness :
  key ChatInputSpec.enterKey = lit "Enter" /\
  shiftKey ChatInputSpec.enterKey = false /\
  sendDisabled ChatInputSpec.ready = false /\
  Forall (fun c => isWhiteSpace c = true) (lit "   ") /\
  sends (keyPress ChatInputSpec.ready (lit "   ") ChatInputSpec.enterKey) = [ [] ].
Proof.
  assert (Hb : Forall (fun c => isWhiteSpace c = true) (lit "   "))
    by (repeat constructor).
  split; [reflexivity|]. split; [reflexivity|]. split; [reflexivity|].
  split; [exact Hb|].
  exact (blank_input_is_sent ChatInputSpec.ready (lit "   ") ChatInputSpec.enterKey
           eq_refl eq_refl eq_refl Hb).
Defined.

(** X3.  Any other key, and Enter with shift, is left alone whatever the
    props: nothing is sent, the input is not cleared and the default effect
    (the line break of Shift+Enter) is not prevented. *)
Theorem other_keys_untouched p chatInput e :
  key e <> lit "Enter" \/ shiftKey e = true ->
  keyPress p chatInput e = [].
Proof.
  intros H. unfold keyPress, preventEnterPress, chatEnterPress.
  destruct (str_eqb (key e) (lit "Enter")) eqn:Ek.
  - apply str_eqb_eq in Ek. destruct H as [H|H]; [contradiction|].
    rewrite H. reflexivity.
  - reflexivity.
Qed.

Lemma other_keys_untouched_witness :
  (key {| key := lit "Enter"; shiftKey := true |} <> lit "Enter" \/
   shiftKey {| key := lit "Enter"; shiftKey := true |} = true) /\
  keyPress ChatInputSpec.ready (lit "line one") {| key := lit "Enter"; shiftKey := true |} = [].
Proof.
  assert (H : key {| key := lit "Enter"; shiftKey := true |} <> lit "Enter" \/
              shiftKey {| key := lit "Enter"; shiftKey := true |} = true)
    by (right; reflexivity).
  split; [exact H|].
  exact (other_keys_untouched ChatInputSpec.ready (lit "line one") _ H).
Defined.

(** X4.  The button and the Enter key agree: in every state of the props,
    a click on the button sends exactly what releasing Enter (without
    shift) sends, and the stream is cancelled by a click exactly when a
    stream is processed and no fetch is loading. *)
Theorem click_agrees_with_enter p chatInput e :
  key e = lit "Enter" -> shiftKey e = false ->
  chatEffects (click p chatInput) = chatEnterPress p chatInput e /\
  (In OnCancelStream (click p chatInput) <->
   isStreamProcessing p = true /\ isFetchLoading p = false).
Proof.
  intros Hk Hs. unfold click, button, chatEnterPress. rewrite Hk, Hs.
  destruct (isStreamProcessing p), (isFetchLoading p), (isLlmModelActive p);
    (split; [reflexivity|]); simpl; intuition congruence.
Qed.

Lemma click_agrees_with_enter_witness :
  key ChatInputSpec.enterKey = lit "Enter" /\ shiftKey ChatInputSpec.enterKey = false /\
  chatEffects (click ChatInputSpec.ready (lit " hi "))
    = chatEnterPress ChatInputSpec.ready (lit " hi ") ChatInputSpec.enterKey.
Proof.
  split; [reflexivity|]. split; [reflexivity|].
  exact (proj1 (click_agrees_with_enter ChatInputSpec.ready (lit " hi ")
                  ChatInputSpec.enterKey eq_refl eq_refl)).
Defined.

(** X5.  An event sends at most one message.  When it sends, the message is
    the trimmed input and the input is empty afterwards; when it does not,
    the input stays as it is (or becomes the text typed, for a change). *)
Theorem event_sends_at_most_once p ev chatInput :
  match ev with
  | Change value =>
      fst (handle p ev chatInput) = value /\ sent (snd (handle p ev chatInput)) = []
  | _ =>
      (fst (handle p ev chatInput) = chatInput /\
       sent (snd (handle p ev chatInput)) = []) \/
      (fst (handle p ev chatInput) = [] /\
       sent (snd (handle p ev chatInput)) = [trim chatInput])
  end.
Proof.
  destruct ev as [value|e|].
  - split; reflexivity.
  - unfold handle, keyPress, preventEnterPress, chatEnterPress.
    destruct (str_eqb (key e) (lit "Enter") && negb (shiftKey e)
              && negb (isStreamProcessing p) && negb (isFetchLoading p)
              && isLlmModelActive p);
      [right|left]; split; reflexivity.
  - unfold handle, click, button.
    destruct (isStreamProcessing p), (isFetchLoading p), (isLlmModelActive p);
      simpl; auto.
Qed.

End ChatInputMore.

(** ** More on the settings form *)

Module SettingsFormMore.
Import Regex SettingsForm SettingsFormView.

Lemma url_check_ok u : url_check u = [] <-> url_shape u.
Proof.
  rewrite <- SettingsFormSpec.urlPattern_shape. unfold url_check.
  destruct (test_anchored urlPattern u); split; congruence.
Qed.

Lemma modelListVariant_check_ok v : modelListVariant_check v = [] <-> v <> None.
Proof. destruct v; simpl; split; congruence. Qed.

Lemma SettingsSchema_ok data :
  SettingsSchema data = [] <->
  url_shape (f_url data) /\
  (jslength (f_apiKey data) = 0 \/ 5 <= jslength (f_apiKey data)) /\
  f_modelListVariant data <> None.
Proof.
  unfold SettingsSchema.
  rewrite <- url_check_ok, <- SettingsFormSpec.apiKey_check_ok, <- modelListVariant_check_ok.
  split.
  - intros H. apply app_eq_nil in H as [H1 H]. apply app_eq_nil in H as [H2 H3]. auto.
  - intros (-> & -> & ->). reflexivity.
Qed.

Lemma handleSubmit_valid data v :
  SettingsSchema data = [] -> f_modelListVariant data = Some v ->
  handleSubmit data = [SetSettings v (f_url data) (f_apiKey data); SetDialogOpen false].
Proof. intros H Hv. unfold handleSubmit. rewrite H, Hv. reflexivity. Qed.

Definition openaiUrl : TSettingsSchema :=
  {| f_url := lit "https://api.openai.com"; f_apiKey := lit "";
     f_modelListVariant := Some (lit "openai") |}.

Lemma openaiUrl_shape : url_shape (f_url openaiUrl).
Proof. apply SettingsFormSpec.urlPattern_shape. vm_compute. reflexivity. Qed.

(** X6.  Every base URL of the shape [http(s)://host[:port]] passes the
    check of the URL field: the pattern rejects nothing of that shape. *)
Theorem url_of_shape_accepted data :
  url_shape (f_url data) ->
  url_check (f_url data) = [] /\
  forall i, In i (SettingsSchema data) -> path i <> FUrl.
Proof.
  intros H. apply url_check_ok in H. split; [exact H|].
  unfold SettingsSchema. rewrite H. simpl. intros i Hi.
  apply in_app_or in Hi as [Hi|Hi].
  - unfold apiKey_check in Hi.
    destruct (string_min5 (f_apiKey data) || literal_empty (f_apiKey data));
      [destruct Hi|]. destruct Hi as [<-|[]]. discriminate.
  - destruct (f_modelListVariant data); [destruct Hi|].
    destruct Hi as [<-|[]]. discriminate.
Qed.

Lemma url_of_shape_accepted_witness :
  url_shape (f_url openaiUrl) /\ url_check (f_url openaiUrl) = [].
Proof.
  split; [exact openaiUrl_shape|].
  exact (proj1 (url_of_shape_accepted openaiUrl openaiUrl_shape)).
Defined.

(** X7.  The form is submitted exactly when the URL has the shape, the key
    is empty or has 5 characters or more, and a variant is set; then the
    three values are stored as they are and the dialog is closed.
    Otherwise the issues are shown, nothing is stored and the dialog stays
    open. *)
Theorem submit_characterization data :
  (submitted (handleSubmit data) = true <->
   url_shape (f_url data) /\
   (jslength (f_apiKey data) = 0 \/ 5 <= jslength (f_apiKey data)) /\
   f_modelListVariant data <> None) /\
  match SettingsSchema data, f_modelListVariant data with
  | [], Some v =>
      handleSubmit data = [SetSettings v (f_url data) (f_apiKey data); SetDialogOpen false]
  | issues, _ => handleSubmit data = [ShowErrors issues]
  end.
Proof.
  rewrite <- SettingsSchema_ok. unfold handleSubmit.
  destruct (SettingsSchema data) as [|i issues] eqn:E.
  - destruct (f_modelListVariant data) as [v|] eqn:Ev.
    + split; [split; reflexivity|reflexivity].
    + apply SettingsSchema_ok in E. destruct E as (_ & _ & E). congruence.
  - split; [|reflexivity]. simpl. split; discriminate.
Qed.

(** The characters after the scheme of a URL that passes. *)
Definition hostPortChar (c : jschar) : bool :=
  wordOrHyphen c || (c =? chr ".")%N || (c =? chr ":")%N.

Lemma label_chars l : label l -> Forall (fun c => hostPortChar c = true) l.
Proof.
  intros [_ H]. eapply Forall_impl; [exact H|].
  intros c Hc. unfold hostPortChar. rewrite Hc. reflexivity.
Qed.

Lemma dotted_chars ls :
  Forall label ls -> Forall (fun c => hostPortChar c = true) (dotted ls).
Proof.
  induction 1 as [|l ls Hl Hls IH]; [constructor|].
  destruct ls as [|l' ls]; [apply label_chars; exact Hl|].
  change (dotted (l :: l' :: ls)) with (l ++ lit "." ++ dotted (l' :: ls)).
  apply Forall_app. split; [apply label_chars; exact Hl|].
  apply Forall_app. split; [|exact IH].
  constructor; [reflexivity|constructor].
Qed.

Lemma digit_is_hostPortChar c : isDigit c = true -> hostPortChar c = true.
Proof.
  unfold hostPortChar, wordOrHyphen, isWordChar, isDigit. intros ->.
  rewrite !orb_true_r. reflexivity.
Qed.

Lemma hostPortChar_plain c :
  hostPortChar c = true ->
  c <> chr "/" /\ c <> chr "?" /\ c <> chr "#" /\ c <> chr "@" /\ isWhiteSpace c = false.
Proof.
  unfold hostPortChar, wordOrHyphen, isWordChar, in_range. intros H.
  rewrite !orb_true_iff, !andb_true_iff, !N.leb_le, !N.eqb_eq in H.
  change (chr "-") with 45%N in H. change (chr ".") with 46%N in H.
  change (chr ":") with 58%N in H.
  change (chr "/") with 47%N. change (chr "?") with 63%N.
  change (chr "#") with 35%N. change (chr "@") with 64%N.
  repeat split; try lia.
  destruct (isWhiteSpace c) eqn:E; [|reflexivity].
  unfold isWhiteSpace, in_range in E.
  rewrite !orb_true_iff, !andb_true_iff, !N.leb_le, !N.eqb_eq in E. lia.
Qed.

(** X8.  A URL that passes has nothing after the host and the port: after
    its scheme come only letters, digits, underscores, hyphens, dots and
    colons, so no path, query, fragment, user part or white space. *)
Theorem accepted_url_has_no_path u :
  test_anchored urlPattern u = true ->
  exists rest,
    (u = lit "http://" ++ rest \/ u = lit "https://" ++ rest) /\
    rest <> [] /\
    Forall (fun c => hostPortChar c = true) rest /\
    Forall (fun c => c <> chr "/" /\ c <> chr "?" /\ c <> chr "#" /\ c <> chr "@" /\
                     isWhiteSpace c = false) rest.
Proof.
  intros H. apply SettingsFormSpec.urlPattern_shape in H.
  destruct H as (scheme & h & p & -> & Hs & Hh & Hp).
  assert (Hhc : h <> [] /\ Forall (fun c => hostPortChar c = true) h).
  { destruct Hh as [->|(ls & Hlen & Hls & ->)].
    - split; [discriminate|]. repeat constructor.
    - split; [|apply dotted_chars; exact Hls].
      destruct ls as [|l ls]; [simpl in Hlen; lia|].
      apply Forall_cons_1 in Hls as [[Hne _] _].
      rewrite SettingsFormSpec.dotted_cons. intros E. apply app_eq_nil in E as [E _].
      contradiction. }
  assert (Hpc : Forall (fun c => hostPortChar c = true) p).
  { destruct Hp as [->|(ds & _ & Hd & ->)]; [constructor|].
    constructor; [reflexivity|].
    eapply Forall_impl; [exact Hd|]. apply digit_is_hostPortChar. }
  destruct Hhc as [Hne Hhc].
  exists (h ++ p). split; [destruct Hs as [->| ->]; auto|].
  split; [intros E; apply app_eq_nil in E as [E _]; contradiction|].
  assert (Hall : Forall (fun c => hostPortChar c = true) (h ++ p))
    by (apply Forall_app; split; assumption).
  split; [exact Hall|].
  eapply Forall_impl; [exact Hall|]. apply hostPortChar_plain.
Qed.

Lemma accepted_url_has_no_path_witness :
  test_anchored urlPattern (lit "http://localhost:11434") = true /\
  exists rest,
    lit "http://localhost:11434" = lit "http://" ++ rest \/
    lit "http://localhost:11434" = lit "https://" ++ rest.
Proof.
  assert (H : test_anchored urlPattern (lit "http://localhost:11434") = true)
    by (vm_compute; reflexivity).
  split; [exact H|].
  destruct (accepted_url_has_no_path _ H) as (rest & Hr & _).
  exists rest. exact Hr.
Defined.

Lemma preset_url_shape p : In p urls -> url_shape (url p).
Proof.
  intros Hin. apply SettingsFormSpec.urlPattern_shape. simpl in Hin.
  destruct Hin as [<-|[<-|[<-|[<-|[]]]]]; vm_compute; reflexivity.
Qed.

(** X9.  Every preset can be saved: after a click on a badge, with a key
    that is empty or has 5 characters or more, submitting stores the
    model type of the preset, its URL and the key, and closes the dialog,
    whatever the form held before. *)
Theorem preset_then_submit p st :
  In p urls ->
  jslength (f_apiKey st) = 0 \/ 5 <= jslength (f_apiKey st) ->
  handleSubmit (clickBadge p st)
    = [SetSettings (modelType p) (url p) (f_apiKey st); SetDialogOpen false].
Proof.
  intros Hin Hk.
  assert (Hv : f_modelListVariant (clickBadge p st) = Some (modelType p)
               /\ f_url (clickBadge p st) = url p
               /\ f_apiKey (clickBadge p st) = f_apiKey st).
  { simpl in Hin. destruct Hin as [<-|[<-|[<-|[<-|[]]]]]; repeat split; reflexivity. }
  destruct Hv as (Hv & Hu & Ha).
  rewrite (handleSubmit_valid _ (modelType p)); [rewrite Hu, Ha; reflexivity| |exact Hv].
  apply SettingsSchema_ok. rewrite Hu, Ha, Hv.
  split; [apply preset_url_shape; exact Hin|]. split; [exact Hk|discriminate].
Qed.

Lemma preset_then_submit_witness :
  In SettingsFormSpec.localhostPreset urls /\
  (jslength (f_apiKey SettingsFormSpec.blank) = 0 \/
   5 <= jslength (f_apiKey SettingsFormSpec.blank)) /\
  handleSubmit (clickBadge SettingsFormSpec.localhostPreset SettingsFormSpec.blank)
    = [SetSettings (lit "ollama") (lit "http://localhost:11434") (lit "");
       SetDialogOpen false].
Proof.
  assert (Hin : In SettingsFormSpec.localhostPreset urls) by (left; reflexivity).
  assert (Hk : jslength (f_apiKey SettingsFormSpec.blank) = 0 \/
               5 <= jslength (f_apiKey SettingsFormSpec.blank)) by (left; reflexivity).
  split; [exact Hin|]. split; [exact Hk|].
  exact (preset_then_submit SettingsFormSpec.localhostPreset SettingsFormSpec.blank Hin Hk).
Defined.

(** X10.  The variant that [setFormValues] sets is always one of the three
    of the select, whatever model type it is given, and so is the variant
    of a selected item: the select then shows the label of that variant. *)
Theorem variant_set_is_listed u t st :
  (exists label v,
     f_modelListVariant (setFormValues u t st) = Some v /\
     In (label, v) modelListVariant /\
     selectText (f_modelListVariant (setFormValues u t st)) = Some label) /\
  (forall model, In model modelListVariant ->
     selectText (f_modelListVariant (selectItem model st)) = Some (fst model)).
Proof.
  split.
  - unfold setFormValues.
    destruct (str_eqb t (lit "ollama")); [|destruct (str_eqb t (lit "openai"))].
    + exists (lit "Ollama - /api/tags"), (lit "ollama").
      split; [reflexivity|]. split; [left; reflexivity|reflexivity].
    + exists (lit "OpenAI - /v1/models"), (lit "openai").
      split; [reflexivity|]. split; [right; left; reflexivity|reflexivity].
    + exists (lit "Manual"), (lit "manual").
      split; [reflexivity|]. split; [right; right; left; reflexivity|reflexivity].
  - intros model Hin. simpl in Hin.
    destruct Hin as [<-|[<-|[<-|[]]]]; reflexivity.
Qed.

End SettingsFormMore.

(** ** More on the model list *)

Module ModelListMore.
Import ModelList.

Section Cache.
Variable getTag : jsstring -> bool -> settled (list TTag).
Variable getModelList : jsstring -> jsstring -> bool -> settled (list TModel).

(** X13.  One run of the query function makes at most one network call,
    and none for a variant other than "ollama" and "openai".  Its result
    is a rejection exactly when the call it made was rejected: the function
    does not turn a failure of the backend into an empty list.  (How often
    the query runs the function is up to the query client.) *)
Theorem query_calls_and_failures v baseUrl token embeddedOnly :
  (length (fst (queryFn getTag getModelList v baseUrl token embeddedOnly)) <= 1)%nat /\
  (v <> lit "ollama" -> v <> lit "openai" ->
   fst (queryFn getTag getModelList v baseUrl token embeddedOnly) = []) /\
  (snd (queryFn getTag getModelList v baseUrl token embeddedOnly) = Rejected <->
   (v = lit "ollama" /\ getTag baseUrl embeddedOnly = Rejected) \/
   (v = lit "openai" /\ getModelList baseUrl token embeddedOnly = Rejected)).
Proof.
  unfold queryFn.
  destruct (str_eqb v (lit "ollama")) eqn:E1.
  { apply str_eqb_eq in E1 as ->. split; [simpl; lia|]. split; [congruence|].
    simpl. destruct (getTag baseUrl embeddedOnly); split.
    - discriminate.
    - intros [[_ H]|[H _]]; discriminate.
    - intros _. left. split; reflexivity.
    - reflexivity. }
  assert (N1 : v <> lit "ollama") by (intros ->; vm_compute in E1; discriminate).
  destruct (str_eqb v (lit "openai")) eqn:E2.
  { apply str_eqb_eq in E2 as ->. split; [simpl; lia|]. split; [congruence|].
    simpl. split.
    - intros H. right. split; [reflexivity|exact H].
    - intros [[H _]|[_ H]]; [contradiction|exact H]. }
  assert (N2 : v <> lit "openai") by (intros ->; vm_compute in E2; discriminate).
  destruct (str_eqb v (lit "manual")); simpl;
    (split; [lia|]); (split; [reflexivity|]); split;
    try discriminate; intros [[H _]|[H _]]; contradiction.
Qed.

End Cache.

End ModelListMore.

(** ** The form, the store and the model list together *)

Module UnselectedVariant.
Import SettingsForm SettingsFormView.

(** X11.  A variant that was never selected is no error: when the store
    holds no variant the form takes the empty string for it, the select
    shows "Select", and with a URL of the shape and a key that passes the
    form is submitted with the empty variant.  With that variant the model
    list is empty and no backend is asked. *)
Theorem unselected_variant_is_saved hostname token st :
  url_shape (orEmpty hostname) ->
  jslength (orEmpty token) = 0 \/ 5 <= jslength (orEmpty token) ->
  selectText (f_modelListVariant (fromStore hostname token None st)) = Some (lit "Select") /\
  handleSubmit (fromStore hostname token None st)
    = [SetSettings (lit "") (orEmpty hostname) (orEmpty token); SetDialogOpen false] /\
  forall getTag getModelList baseUrl token' embeddedOnly,
    ModelList.queryFn getTag getModelList (lit "") baseUrl token' embeddedOnly
      = ([], ModelList.Resolved []).
Proof.
  intros Hu Hk. split; [reflexivity|]. split; [|reflexivity].
  apply SettingsFormMore.handleSubmit_valid; [|reflexivity].
  apply SettingsFormMore.SettingsSchema_ok. simpl.
  split; [exact Hu|]. split; [exact Hk|discriminate].
Qed.

Lemma unselected_variant_is_saved_witness :
  url_shape (orEmpty (Some (lit "https://api.openai.com"))) /\
  (jslength (orEmpty None) = 0 \/ 5 <= jslength (orEmpty None)) /\
  handleSubmit (fromStore (Some (lit "https://api.openai.com")) None None SettingsFormSpec.blank)
    = [SetSettings (lit "") (lit "https://api.openai.com") (lit ""); SetDialogOpen false].
Proof.
  assert (Hk : jslength (orEmpty None) = 0 \/ 5 <= jslength (orEmpty None))
    by (left; reflexivity).
  split; [exact SettingsFormMore.openaiUrl_shape|]. split; [exact Hk|].
  exact (proj1 (proj2 (unselected_variant_is_saved (Some (lit "https://api.openai.com"))
                         None SettingsFormSpec.blank SettingsFormMore.openaiUrl_shape Hk))).
Defined.

End UnselectedVariant.

(** ** More on the upload route *)

Module DocumentsMore.
Import FileAPI Documents DocumentsRun.

Definition upload (t : String.string) (rej : rejection) (file : File) : request :=
  {| time := lit t; io := rej; formData := [(lit "file", EntryFile file)] |}.

Definition noFile (t : String.string) : request :=
  {| time := lit t; io := NoRejection; formData := [] |}.

Lemma omap_cons {A B} (f : A -> option B) x l :
  omap f (x :: l) = match f x with Some y => y :: omap f l | None => omap f l end.
Proof. reflexivity. Qed.

Lemma run_cons resolve req reqs st :
  run resolve (req :: reqs) st = run resolve reqs (snd (handle resolve req st)).
Proof. reflexivity. Qed.

(** The state after a request that is answered with 200. *)
Lemma handle_stored resolve req st file :
  stored req = Some file ->
  handle resolve req st =
  ( Responded {| status := 200; body := StreamBody [content file] |},
    {| disk := <[resolve (pathOf (name file)) := content file]> (disk st);
       table := insert (time req) (name file) (size file) (table st) |} ).
Proof.
  unfold stored, uploaded, handle, POST.
  destruct (io req) as [| |[partial|]|]; try discriminate.
  destruct (get (formData req) (lit "file")) as [[s|f]|]; try discriminate.
  intros H. injection H as ->. reflexivity.
Qed.

(** Any other request leaves the table as it is. *)
Lemma handle_not_stored resolve req st :
  stored req = None -> table (snd (handle resolve req st)) = table st.
Proof.
  unfold stored, uploaded, handle, POST.
  destruct (get (formData req) (lit "file")) as [[s|f]|]; try reflexivity.
  destruct (io req) as [| |[partial|]|]; try reflexivity. discriminate.
Qed.

(** A request writes to the file of its File, if it writes at all. *)
Lemma handle_disk resolve req st :
  disk (snd (handle resolve req st)) = disk st \/
  exists file bytes,
    uploaded req = Some file /\
    disk (snd (handle resolve req st)) = <[resolve (pathOf (name file)) := bytes]> (disk st).
Proof.
  unfold uploaded, handle, POST.
  destruct (get (formData req) (lit "file")) as [[s|f]|]; try (left; reflexivity).
  destruct (io req) as [| |[partial|]|]; try (left; reflexivity);
    right; eexists _, _; split; reflexivity.
Qed.

(** A request that stores nothing and is in step changes nothing. *)
Lemma handle_in_step resolve req st :
  inStep req -> stored req = None -> snd (handle resolve req st) = st.
Proof.
  unfold inStep, stored, uploaded, handle, POST.
  destruct (get (formData req) (lit "file")) as [[s|f]|]; try reflexivity.
  destruct (io req) as [| |[partial|]|]; try reflexivity; try contradiction.
  discriminate.
Qed.

Lemma max_id_app rs1 rs2 : max_id (rs1 ++ rs2) = Z.max (max_id rs1) (max_id rs2).
Proof.
  induction rs1 as [|r rs1 IH]; simpl.
  - assert (0 <= max_id rs2) by (induction rs2; simpl; lia). lia.
  - rewrite IH. lia.
Qed.

Lemma insert_NoDup now filename fileSize t :
  NoDup (map id (rows t)) -> NoDup (map id (rows (insert now filename fileSize t))).
Proof.
  intros H. simpl. rewrite map_app. simpl.
  apply NoDup_app. split; [exact H|]. split; [|apply NoDup_singleton].
  intros x Hx Hx'. apply list_elem_of_singleton in Hx'. subst x.
  apply list_elem_of_In, in_map_iff in Hx as (r & Hr & Hin).
  apply DocumentsSpec.max_id_ge in Hin. lia.
Qed.

(** X14.  Over any sequence of requests the table only grows: the rows it
    had are kept as they were, in their order, and one row is appended for
    each request that is answered with 200, in the order of the requests,
    with the name and the size of its File; a request without a File, and
    one during which a promise rejects, adds nothing.  The ids of the table
    stay pairwise different. *)
Theorem run_appends_rows resolve reqs : forall st,
  NoDup (map id (rows (table st))) ->
  exists new,
    rows (table (run resolve reqs st)) = rows (table st) ++ new /\
    map (fun r => (filename r, fileSize r)) new
      = map (fun f => (name f, Some (size f))) (omap stored reqs) /\
    NoDup (map id (rows (table (run resolve reqs st)))).
Proof.
  induction reqs as [|req reqs IH]; intros st Hnd.
  - exists []. rewrite app_nil_r. auto.
  - rewrite run_cons, omap_cons.
    destruct (stored req) as [file|] eqn:Eu.
    + rewrite (handle_stored _ _ _ _ Eu). cbn [snd].
      destruct (IH {| disk := <[resolve (pathOf (name file)) := content file]> (disk st);
                      table := insert (time req) (name file) (size file) (table st) |})
        as (new & Hrows & Hnew & Hnd').
      { apply insert_NoDup. exact Hnd. }
      cbn [table] in Hrows. unfold insert in Hrows at 2. cbn [rows] in Hrows.
      rewrite <- app_assoc in Hrows.
      eexists. split; [exact Hrows|]. split; [|exact Hnd'].
      cbn [map app filename fileSize]. f_equal. exact Hnew.
    + destruct (IH (snd (handle resolve req st))) as (new & Hrows & Hnew & Hnd').
      { rewrite (handle_not_stored _ _ _ Eu). exact Hnd. }
      rewrite (handle_not_stored _ _ _ Eu) in Hrows.
      exists new. split; [exact Hrows|]. split; [exact Hnew|exact Hnd'].
Qed.

Lemma run_appends_rows_witness :
  NoDup (map id (rows (table DocumentsSpec.emptyServer))) /\
  exists new,
    rows (table (run Paths.lexical
                   [ upload "t1" NoRejection (DocumentsSpec.notes "a");
                     upload "t2" (WriteFileRejects None) (DocumentsSpec.named "sub/b.txt" "b");
                     noFile "t3" ] DocumentsSpec.emptyServer))
      = rows (table DocumentsSpec.emptyServer) ++ new /\
    map (fun r => (filename r, fileSize r)) new = [ (lit "notes.txt", Some 1) ].
Proof.
  assert (H : NoDup (map id (rows (table DocumentsSpec.emptyServer)))) by constructor.
  split; [exact H|].
  destruct (run_appends_rows Paths.lexical
              [ upload "t1" NoRejection (DocumentsSpec.notes "a");
                upload "t2" (WriteFileRejects None) (DocumentsSpec.named "sub/b.txt" "b");
                noFile "t3" ] DocumentsSpec.emptyServer H) as (new & Hr & Hn & _).
  exists new. split; [exact Hr|exact Hn].
Defined.

(** The ids of a table that started empty: 1, 2, ..., and the counter at
    the last of them. *)
Definition counted (t : files) : Prop :=
  sequence t = Z.of_nat (length (rows t)) /\
  max_id (rows t) = Z.of_nat (length (rows t)) /\
  map id (rows t) = map Z.of_nat (seq 1 (length (rows t))).

Lemma insert_counted now filename fileSize t :
  counted t -> counted (insert now filename fileSize t).
Proof.
  intros (Hs & Hm & Hi). unfold counted. simpl.
  rewrite length_app, max_id_app, map_app, Hs, Hm, Hi. simpl.
  rewrite Nat.add_1_r, seq_S, map_app. simpl.
  split; [lia|]. split; [lia|]. f_equal. f_equal. lia.
Qed.

Lemma run_counted resolve reqs :
  forall st, counted (table st) -> counted (table (run resolve reqs st)).
Proof.
  induction reqs as [|req reqs IH]; intros st H; [exact H|].
  rewrite run_cons. apply IH.
  destruct (stored req) as [file|] eqn:Eu.
  - rewrite (handle_stored _ _ _ _ Eu). apply insert_counted. exact H.
  - rewrite (handle_not_stored _ _ _ Eu). exact H.
Qed.

Lemma run_length resolve reqs : forall st,
  length (rows (table (run resolve reqs st)))
  = (length (rows (table st)) + length (omap stored reqs))%nat.
Proof.
  induction reqs as [|req reqs IH]; intros st; [simpl; lia|].
  rewrite run_cons, IH. rewrite omap_cons.
  destruct (stored req) as [file|] eqn:Eu.
  - rewrite (handle_stored _ _ _ _ Eu). unfold insert. cbn [snd table rows].
    rewrite length_app. cbn [length]. lia.
  - rewrite (handle_not_stored _ _ _ Eu). lia.
Qed.

(** X15.  Starting from a table that has never held a row, the ids are
    1, 2, 3, ... in the order of the requests that are answered with 200,
    whatever requests without a File or with a rejection come in between:
    the k-th such request gets the id k. *)
Theorem ids_count_uploads resolve reqs disk0 :
  map id (rows (table (run resolve reqs {| disk := disk0;
                                            table := {| rows := []; sequence := 0 |} |})))
  = map Z.of_nat (seq 1 (length (omap stored reqs))).
Proof.
  pose proof (run_counted resolve reqs
                {| disk := disk0; table := {| rows := []; sequence := 0 |} |}) as H.
  destruct H as (_ & _ & H); [repeat split|].
  rewrite H, run_length. reflexivity.
Qed.

(** X16.  The files that no request writes to are as they were: over any
    sequence of requests, whatever rejects in them, the file that
    [./uploads/<name>] resolves to is unchanged when no request carries a
    File whose path resolves to that same file. *)
Theorem other_files_untouched resolve other reqs : forall st,
  Forall (fun req => forall f, uploaded req = Some f ->
            resolve (pathOf (name f)) <> resolve (pathOf other)) reqs ->
  disk (run resolve reqs st) !! resolve (pathOf other) = disk st !! resolve (pathOf other).
Proof.
  induction reqs as [|req reqs IH]; intros st H; [reflexivity|].
  apply Forall_cons_1 in H as [Hreq H]. rewrite run_cons, (IH _ H).
  destruct (handle_disk resolve req st) as [->|(file & bytes & Hu & ->)]; [reflexivity|].
  apply lookup_insert_ne. exact (Hreq file Hu).
Qed.

Lemma other_files_untouched_witness :
  Forall (fun req => forall f, uploaded req = Some f ->
            Paths.lexical (pathOf (name f)) <> Paths.lexical (pathOf (lit "thesis.pdf")))
    [ upload "t1" InsertRejects (DocumentsSpec.named "./notes.txt" "a") ] /\
  disk (run Paths.lexical [ upload "t1" InsertRejects (DocumentsSpec.named "./notes.txt" "a") ]
           DocumentsSpec.emptyServer) !! Paths.lexical (pathOf (lit "thesis.pdf"))
  = disk DocumentsSpec.emptyServer !! Paths.lexical (pathOf (lit "thesis.pdf")).
Proof.
  assert (H : Forall (fun req => forall f, uploaded req = Some f ->
                Paths.lexical (pathOf (name f)) <> Paths.lexical (pathOf (lit "thesis.pdf")))
                [ upload "t1" InsertRejects (DocumentsSpec.named "./notes.txt" "a") ]).
  { constructor; [|constructor]. intros f Hf. vm_compute in Hf.
    injection Hf as <-. vm_compute. discriminate. }
  split; [exact H|].
  exact (other_files_untouched Paths.lexical (lit "thesis.pdf") _ DocumentsSpec.emptyServer H).
Defined.

Lemma get_app_skip pre rest name :
  Forall (fun entry => fst entry <> name) pre ->
  get (pre ++ rest) name = get rest name.
Proof.
  induction 1 as [|[n v] pre Hn _ IH]; simpl; [reflexivity|].
  destruct (str_eqb n name) eqn:E; [apply str_eqb_eq in E; contradiction|exact IH].
Qed.

(** X17.  Of several fields named [file] the first counts, whatever it is,
    and fields of other names are ignored: the request is handled as if it
    had that one field. *)
Theorem first_file_field_counts resolve now io pre v rest st :
  Forall (fun entry => fst entry <> lit "file") pre ->
  POST resolve now io (pre ++ (lit "file", v) :: rest) st
    = POST resolve now io [(lit "file", v)] st.
Proof.
  intros H. unfold POST. rewrite (get_app_skip _ _ _ H). reflexivity.
Qed.

Lemma first_file_field_counts_witness :
  Forall (fun entry => fst entry <> lit "file")
    [ (lit "title", EntryString (lit "x")) ] /\
  POST Paths.lexical (lit "t") NoRejection
    ([ (lit "title", EntryString (lit "x")) ]
     ++ (lit "file", EntryString (lit "a.txt"))
        :: [ (lit "file", EntryFile (DocumentsSpec.notes "a")) ])
    DocumentsSpec.emptyServer
  = POST Paths.lexical (lit "t") NoRejection
      [ (lit "file", EntryString (lit "a.txt")) ] DocumentsSpec.emptyServer.
Proof.
  assert (H : Forall (fun entry : jsstring * FormDataEntryValue => fst entry <> lit "file")
                [ (lit "title", EntryString (lit "x")) ]).
  { constructor; [vm_compute; discriminate|constructor]. }
  split; [exact H|].
  exact (first_file_field_counts Paths.lexical (lit "t") NoRejection _
           (EntryString (lit "a.txt")) _ DocumentsSpec.emptyServer H).
Defined.

Lemma latest_snoc_same resolve f rs row :
  resolve (pathOf (filename row)) = f -> latest resolve f (rs ++ [row]) = Some row.
Proof.
  intros H. unfold latest. rewrite filter_app, filter_cons_True by exact H.
  rewrite filter_nil. apply last_snoc.
Qed.

Lemma latest_snoc_other resolve f rs row :
  resolve (pathOf (filename row)) <> f -> latest resolve f (rs ++ [row]) = latest resolve f rs.
Proof.
  intros H. unfold latest. rewrite filter_app, filter_cons_False by exact H.
  rewrite filter_nil, app_nil_r. reflexivity.
Qed.

(** The table and the disk agree: every file that a row of the table
    names is on disk, and has the size that the newest of the rows naming
    it records. *)
Definition agree (resolve : jsstring -> jsstring) (st : ServerState) : Prop :=
  forall f r, latest resolve f (rows (table st)) = Some r ->
    exists bytes,
      disk st !! f = Some bytes /\
      fileSize r = Some (Z.of_nat (length bytes)).

Lemma handle_agree resolve req st :
  inStep req -> (forall f, uploaded req = Some f -> File_wf f) ->
  agree resolve st -> agree resolve (snd (handle resolve req st)).
Proof.
  intros Hin Hwf Hst. destruct (stored req) as [file|] eqn:Eu.
  - rewrite (handle_stored _ _ _ _ Eu). cbn [snd]. intros f r.
    unfold insert. cbn [table rows disk].
    assert (Hup : uploaded req = Some file).
    { unfold stored in Eu. destruct (io req); try discriminate Eu. exact Eu. }
    destruct (decide (resolve (pathOf (name file)) = f)) as [<-|Hne].
    + rewrite latest_snoc_same by reflexivity. intros H. injection H as <-.
      exists (content file). split; [apply lookup_insert_eq|].
      cbn [fileSize]. f_equal. apply Hwf. exact Hup.
    + rewrite latest_snoc_other by exact Hne. intros H.
      destruct (Hst f r H) as (bytes & Hd & Hs). exists bytes.
      split; [|exact Hs]. rewrite lookup_insert_ne; [exact Hd|exact Hne].
  - rewrite (handle_in_step _ _ _ Hin Eu). exact Hst.
Qed.

(** X18.  The table and the disk stay in agreement.  Suppose every file
    that a row names is on disk with the size that the newest row naming it
    records (two names that resolve to one file count as one).  Then so it
    is after any sequence of requests whose Files have the size of their
    content and in which nothing rejects after the disk has been written
    to.  (An older row of a file uploaded again keeps the size of the
    content that was replaced.) *)
Theorem table_and_disk_agree resolve reqs : forall st,
  agree resolve st ->
  Forall (fun req => inStep req /\ forall f, uploaded req = Some f -> File_wf f) reqs ->
  agree resolve (run resolve reqs st).
Proof.
  induction reqs as [|req reqs IH]; intros st Hst Hwf; [exact Hst|].
  apply Forall_cons_1 in Hwf as [[Hin Hreq] Hwf]. rewrite run_cons.
  apply IH; [|exact Hwf]. apply handle_agree; assumption.
Qed.

Lemma table_and_disk_agree_witness :
  agree Paths.lexical DocumentsSpec.emptyServer /\
  Forall (fun req => inStep req /\ forall f, uploaded req = Some f -> File_wf f)
    [ upload "t1" NoRejection (DocumentsSpec.notes "first");
      upload "t2" NoRejection (DocumentsSpec.named "./notes.txt" "second!") ] /\
  agree Paths.lexical
    (run Paths.lexical
       [ upload "t1" NoRejection (DocumentsSpec.notes "first");
         upload "t2" NoRejection (DocumentsSpec.named "./notes.txt" "second!") ]
       DocumentsSpec.emptyServer).
Proof.
  assert (H0 : agree Paths.lexical DocumentsSpec.emptyServer).
  { intros n r H. vm_compute in H. discriminate H. }
  assert (Hwf : Forall (fun req => inStep req /\ forall f, uploaded req = Some f -> File_wf f)
    [ upload "t1" NoRejection (DocumentsSpec.notes "first");
      upload "t2" NoRejection (DocumentsSpec.named "./notes.txt" "second!") ]).
  { repeat constructor; intros f Hf; vm_compute in Hf; injection Hf as <-; reflexivity. }
  split; [exact H0|]. split; [exact Hwf|].
  exact (table_and_disk_agree Paths.lexical _ DocumentsSpec.emptyServer H0 Hwf).
Defined.

End DocumentsMore.

(** ** More on the upload page *)

Module UploadPageMore.
Import FileAPI UploadPage.

Lemma readLoop_no_fetch fileSize chunks :
  forall n, fetches (snd (readLoop fileSize n chunks)) = [].
Proof.
  induction chunks as [|c chunks IH]; intros n; [reflexivity|].
  rewrite UploadPageSpec.readLoop_cons. cbn [snd]. exact (IH _).
Qed.

Lemma tryUpload_no_fetch file r : fetches (tryUpload file r) = [].
Proof.
  unfold tryUpload. destruct r as [|status body]; [reflexivity|].
  destruct (negb (ok status)); [reflexivity|].
  destruct body as [[chunks e]|]; [|reflexivity].
  rewrite UploadPageSpec.fetches_app, readLoop_no_fetch. destruct e; reflexivity.
Qed.

Lemma onSubmit_fetches file r :
  fetches (onSubmit file r) = [Fetch (lit "/api/documents") (lit "POST") file (name file)].
Proof.
  unfold onSubmit.
  change (Fetch (lit "/api/documents") (lit "POST") file (name file)
            :: fetches (tryUpload file r ++ finallyUpload file)
          = [Fetch (lit "/api/documents") (lit "POST") file (name file)]).
  rewrite UploadPageSpec.fetches_app, tryUpload_no_fetch. reflexivity.
Qed.

(** X20.  [onSubmit] makes one network call and no more, whatever comes
    of it: a rejected call, a response that is not ok and a stream that
    breaks are not tried again. *)
Theorem onSubmit_fetches_once file r :
  fetches (onSubmit file r)
    = [Fetch (lit "/api/documents") (lit "POST") file (name file)] /\
  fetches (tryUpload file r ++ finallyUpload file) = [].
Proof.
  split; [apply onSubmit_fetches|].
  rewrite UploadPageSpec.fetches_app, tryUpload_no_fetch. reflexivity.
Qed.



Lemma concat_nil_all_nil (chunks : list (list Byte.byte)) :
  concat chunks = [] -> Forall (fun c => c = []) chunks.
Proof.
  induction chunks as [|c chunks IH]; simpl; intros H; [constructor|].
  apply app_eq_nil in H as [-> H]. constructor; [reflexivity|apply IH; exact H].
Qed.

Lemma readLoop_empty_chunks chunks :
  Forall (fun c => c = []) chunks ->
  Forall (fun x => x = UpdateProgress Num.NaN) (snd (readLoop 0 0 chunks)).
Proof.
  induction 1 as [|c chunks -> _ IH]; [constructor|].
  rewrite UploadPageSpec.readLoop_cons. cbn [snd length]. constructor.
  - vm_compute. reflexivity.
  - exact IH.
Qed.

Lemma lastProgress_all_NaN t :
  Forall (fun x => x = UpdateProgress Num.NaN) t ->
  lastProgress t = None \/ lastProgress t = Some Num.NaN.
Proof.
  induction 1 as [|x t -> _ IH]; [left; reflexivity|].
  rewrite UploadPageSpec.lastProgress_cons.
  destruct IH as [-> | ->]; right; reflexivity.
Qed.

(** X22.  An empty file never shows progress: it passes the check of the
    size, and every chunk that arrives for it divides 0 by 0, so that each
    progress step is NaN and none is 100. *)
Theorem empty_file_progress_is_NaN file chunks :
  File_wf file -> size file = 0 -> concat chunks = content file ->
  Forall (fun x => x = UpdateProgress Num.NaN) (snd (readLoop (size file) 0 chunks)) /\
  lastProgress (snd (readLoop (size file) 0 chunks)) <> Some (Num.of_Z 100).
Proof.
  intros Hwf H0 Hc.
  assert (Hnil : content file = []).
  { unfold File_wf in Hwf. rewrite H0 in Hwf. destruct (content file); [reflexivity|].
    simpl in Hwf. lia. }
  rewrite Hnil in Hc. apply concat_nil_all_nil in Hc.
  rewrite H0. pose proof (readLoop_empty_chunks chunks Hc) as Hall.
  split; [exact Hall|].
  destruct (lastProgress_all_NaN _ Hall) as [E|E]; rewrite E; discriminate.
Qed.

Definition emptyFile : File :=
  {| name := lit "empty.txt"; type := lit "text/plain"; size := 0; content := [] |}.

Lemma empty_file_progress_is_NaN_witness :
  File_wf emptyFile /\ size emptyFile = 0 /\ concat [ []; [] ] = content emptyFile /\
  formSchema (AFile emptyFile) = [] /\
  lastProgress (snd (readLoop (size emptyFile) 0 [ []; [] ])) <> Some (Num.of_Z 100).
Proof.
  split; [reflexivity|]. split; [reflexivity|]. split; [reflexivity|].
  split; [vm_compute; reflexivity|].
  exact (proj2 (empty_file_progress_is_NaN emptyFile [ []; [] ] eq_refl eq_refl eq_refl)).
Defined.

(** X23.  The loop makes one progress update for each chunk, and the k-th
    is the step of the bytes of the first k chunks; the length received in
    the end is that of all the chunks. *)
Theorem readLoop_steps fileSize chunks : forall n,
  fst (readLoop fileSize n chunks) = n + UploadPageSpec.total chunks /\
  snd (readLoop fileSize n chunks)
    = map (fun k => UpdateProgress
                      (step (n + UploadPageSpec.total (take k chunks)) fileSize))
          (seq 1 (length chunks)).
Proof. exact (UploadPageSpec.readLoop_closed fileSize chunks). Qed.

End UploadPageMore.

(** ** Embedding a document *)

Module EmbeddingSpec.
Import Embedding.

(** X24.  When the embedding call resolves, one notification is shown: the
    success if the response says so, else the error with the message of the
    response; then the list of files is loaded again and the page stops
    embedding, so that the buttons work again. *)
Theorem embed_resolved documentId response isEmbedding :
  toasts (embedDocumentPost documentId (Some response))
    = [ if success response
        then ToastSuccess (lit "Document embedded successfully")
        else ToastError (lit "Failed to embed document") (errorMessage response) ] /\
  In LoadFiles (embedDocumentPost documentId (Some response)) /\
  isEmbeddingAfter (embedDocumentPost documentId (Some response)) isEmbedding = false.
Proof.
  unfold embedDocumentPost. destruct (success response).
  - split; [reflexivity|]. split; [|reflexivity].
    right. right. right. left. reflexivity.
  - split; [reflexivity|]. split; [|reflexivity].
    right. right. right. left. reflexivity.
Qed.

(** X25.  When the embedding call rejects, nothing after it runs: no
    notification, no reload, and the page is left embedding, with every
    Embedd button disabled, so that no click on one does anything. *)
Theorem embed_rejected documentId isEmbedding :
  toasts (embedDocumentPost documentId None) = [] /\
  ~ In LoadFiles (embedDocumentPost documentId None) /\
  isEmbeddingAfter (embedDocumentPost documentId None) isEmbedding = true /\
  forall file response,
    clickCell (rowCell file (isEmbeddingAfter (embedDocumentPost documentId None) isEmbedding))
              response = [].
Proof.
  split; [reflexivity|]. split; [simpl; intuition discriminate|].
  split; [reflexivity|]. intros file response.
  change (isEmbeddingAfter (embedDocumentPost documentId None) isEmbedding) with true.
  unfold rowCell. destruct (negb (Documents.isEmbedded file)); reflexivity.
Qed.

(** X26.  A file that has just been uploaded is offered for embedding:
    when the route answers a request with 200, the row that it has inserted
    shows the Embedd button, and while the page is not embedding a click on
    it asks for the embedding of the id of that row with the model
    nomic-embed-text. *)
Theorem uploaded_file_can_be_embedded resolve now io formData st resp st' response :
  Documents.POST resolve now io formData st = (Documents.Responded resp, st') ->
  Documents.status resp = 200 ->
  exists row,
    Documents.rows (Documents.table st') = Documents.rows (Documents.table st) ++ [row] /\
    rowCell row false = EmbedButton (Documents.id row) false /\
    clickCell (rowCell row false) response
      = embedDocumentPost (Documents.id row) response /\
    In (PostEmbedDocument (Documents.id row) (lit "nomic-embed-text"))
       (clickCell (rowCell row false) response).
Proof.
  intros H Hs.
  destruct (DocumentsSpec.POST_200 _ _ _ _ _ _ _ H Hs) as (file & _ & _ & _ & ->).
  eexists. split; [reflexivity|]. split; [reflexivity|]. split; [reflexivity|].
  right. left. reflexivity.
Qed.

Lemma uploaded_file_can_be_embedded_witness :
  Documents.POST Paths.lexical (lit "t1") Documents.NoRejection
    [(lit "file", Documents.EntryFile (DocumentsSpec.notes "first"))] DocumentsSpec.emptyServer
  = ( Documents.Responded
        {| Documents.status := 200;
           Documents.body := Documents.StreamBody [FileAPI.content (DocumentsSpec.notes "first")] |},
      snd (Documents.POST Paths.lexical (lit "t1") Documents.NoRejection
             [(lit "file", Documents.EntryFile (DocumentsSpec.notes "first"))]
             DocumentsSpec.emptyServer) ) /\
  exists row,
    Documents.rows (Documents.table
      (snd (Documents.POST Paths.lexical (lit "t1") Documents.NoRejection
              [(lit "file", Documents.EntryFile (DocumentsSpec.notes "first"))]
              DocumentsSpec.emptyServer)))
      = Documents.rows (Documents.table DocumentsSpec.emptyServer) ++ [row] /\
    rowCell row false = EmbedButton (Documents.id row) false.
Proof.
  split; [reflexivity|].
  destruct (uploaded_file_can_be_embedded Paths.lexical (lit "t1") Documents.NoRejection
              [(lit "file", Documents.EntryFile (DocumentsSpec.notes "first"))]
              DocumentsSpec.emptyServer _ _ None eq_refl eq_refl) as (row & Hr & Hc & _).
  exists row. split; [exact Hr|exact Hc].
Defined.

End EmbeddingSpec.
